(** * github-stars.py: recap of a user's starred repositories

    A shallow embedding of [src/github-star-repos/github-stars.py] and the
    properties its specification states about it.

    Python values are modelled as the script sees them: a [str] is a
    sequence of Unicode code points, the parsed JSON of the GitHub API is a
    tree of [json] values, a raised exception is the [Raise] branch of
    [result].  JSON numbers are the integers the API delivers. *)

From Stdlib Require Import String Ascii ZArith NArith List Bool Lia.
From Stdlib Require Import Sorted Permutation.
Import ListNotations.

#[local] Set Warnings "-register-all".

(** ** Python values *)

Module Py.

(** A Python [str]: its code points, in order. *)
Definition pystr : Type := list N.

(** An ASCII literal of the source as a [pystr]. *)
Definition u (s : string) : pystr := map N_of_ascii (list_ascii_of_string s).

Fixpoint str_eqb (s t : pystr) : bool :=
  match s, t with
  | [], [] => true
  | a :: s', b :: t' => N.eqb a b && str_eqb s' t'
  | _, _ => false
  end.

(** [s.startswith(p)] *)
Fixpoint startswith (p s : pystr) : bool :=
  match p, s with
  | [], _ => true
  | a :: p', b :: s' => N.eqb a b && startswith p' s'
  | _ :: _, [] => false
  end.

(** [p in s] for two strings: [p] occurs in [s] as a substring. *)
Fixpoint str_contains (p s : pystr) : bool :=
  startswith p s ||
  match s with
  | [] => false
  | _ :: s' => str_contains p s'
  end.

(** What [response.json()] returns.  A [dict] keeps its items in insertion
    order; [dict_lookup] finds the value stored under a key. *)
Inductive json : Type :=
| JNull
| JBool (b : bool)
| JNum (n : Z)
| JStr (s : pystr)
| JArr (l : list json)
| JObj (d : list (pystr * json)).

Fixpoint dict_lookup (k : pystr) (d : list (pystr * json)) : option json :=
  match d with
  | [] => None
  | (k', v) :: d' => if str_eqb k' k then Some v else dict_lookup k d'
  end.

(** The exceptions the script can raise. *)
Inductive exn : Type :=
| KeyError
| TypeError
| AttributeError
| HTTPError
| JSONDecodeError
| OSError
| UnicodeEncodeError.

Inductive result (A : Type) : Type :=
| Ok (a : A)
| Raise (e : exn).
Arguments Ok {A} a.
Arguments Raise {A} e.

Definition bind {A B} (m : result A) (k : A -> result B) : result B :=
  match m with
  | Ok a => k a
  | Raise e => Raise e
  end.

Fixpoint mapM {A B} (f : A -> result B) (l : list A) : result (list B) :=
  match l with
  | [] => Ok []
  | x :: l' =>
      bind (f x) (fun y => bind (mapM f l') (fun ys => Ok (y :: ys)))
  end.

(** Truth value of an object, as [if x] and [x or y] test it. *)
Definition truthy (v : json) : bool :=
  match v with
  | JNull => false
  | JBool b => b
  | JNum n => negb (Z.eqb n 0)
  | JStr s => match s with [] => false | _ => true end
  | JArr l => match l with [] => false | _ => true end
  | JObj d => match d with [] => false | _ => true end
  end.

(** [r.get(k, default)]: only a [dict] has the method. *)
Definition get (r : json) (k : pystr) (default : json) : result json :=
  match r with
  | JObj d =>
      Ok (match dict_lookup k d with Some v => v | None => default end)
  | _ => Raise AttributeError
  end.

(** [r[k]] with a string key. *)
Definition getitem (r : json) (k : pystr) : result json :=
  match r with
  | JObj d =>
      match dict_lookup k d with
      | Some v => Ok v
      | None => Raise KeyError
      end
  | _ => Raise TypeError
  end.

(** [k in item] with a string on the left. *)
Definition contains (k : pystr) (item : json) : result bool :=
  match item with
  | JObj d => Ok (match dict_lookup k d with Some _ => true | None => false end)
  | JArr l =>
      Ok (existsb (fun x => match x with JStr s => str_eqb s k | _ => false end) l)
  | JStr s => Ok (str_contains k s)
  | _ => Raise TypeError
  end.

End Py.

Import Py.

Declare Scope py_scope.
Delimit Scope py_scope with py.
Notation "x <- m ;; k" := (bind m (fun x => k))
  (at level 61, m at next level, right associativity) : py_scope.

(** ** Normalizer: lines 56-83 of [export_to_json] *)

Module Normalizer.

Local Open Scope py_scope.

(** The [repo_data] dictionary: sixteen fixed keys, each holding whatever
    the raw entry gave. *)
Record repo_data : Type := mk_repo_data {
  name : json;
  description : json;
  url : json;
  language : json;
  stars : json;
  forks : json;
  open_issues : json;
  topics : json;
  created_at : json;
  updated_at : json;
  starred_at : json;
  archived : json;
  owner : json;
  owner_type : json;
  license : json;
  homepage : json
}.

(** Lines 58-63: the repository object and the star timestamp. *)
Definition split_item (item : json) : result (json * json) :=
  wrapped <- contains (u "repo") item ;;
  if wrapped then
    r <- getitem item (u "repo") ;;
    s <- get item (u "starred_at") JNull ;;
    Ok (r, s)
  else Ok (item, JNull).

(** Line 80: [r.get("license", {}).get("name") if r.get("license") else None] *)
Definition license_of (r : json) : result json :=
  c <- get r (u "license") JNull ;;
  if truthy c then
    l <- get r (u "license") (JObj []) ;;
    get l (u "name") JNull
  else Ok JNull.

(** Lines 65-82, the values evaluated in the order of the display. *)
Definition build_repo_data (r starred : json) : result repo_data :=
  v_name <- getitem r (u "full_name") ;;
  v_description <- get r (u "description") JNull ;;
  v_url <- getitem r (u "html_url") ;;
  v_language <- get r (u "language") JNull ;;
  v_stars <- get r (u "stargazers_count") (JNum 0) ;;
  v_forks <- get r (u "forks_count") (JNum 0) ;;
  v_open_issues <- get r (u "open_issues_count") (JNum 0) ;;
  v_topics <- get r (u "topics") (JArr []) ;;
  v_created_at <- get r (u "created_at") JNull ;;
  v_updated_at <- get r (u "updated_at") JNull ;;
  v_archived <- get r (u "archived") (JBool false) ;;
  o1 <- get r (u "owner") (JObj []) ;;
  v_owner <- get o1 (u "login") JNull ;;
  o2 <- get r (u "owner") (JObj []) ;;
  v_owner_type <- get o2 (u "type") JNull ;;
  v_license <- license_of r ;;
  v_homepage <- get r (u "homepage") JNull ;;
  Ok {| name := v_name; description := v_description; url := v_url;
        language := v_language; stars := v_stars; forks := v_forks;
        open_issues := v_open_issues; topics := v_topics;
        created_at := v_created_at; updated_at := v_updated_at;
        starred_at := starred; archived := v_archived;
        owner := v_owner; owner_type := v_owner_type;
        license := v_license; homepage := v_homepage |}.

End Normalizer.

Module Exporter.

Import Normalizer.
Local Open Scope py_scope.

(** One pass of the loop at line 56. *)
Definition normalize (item : json) : result repo_data :=
  rs <- split_item item ;;
  build_repo_data (fst rs) (snd rs).

(** The [export_data] dictionary of lines 50-54. *)
Record export_data : Type := mk_export_data {
  exported_at : pystr;
  total_count : Z;
  repositories : list repo_data
}.

(** Lines 50-83: the document built before the file is opened; [now] is
    [datetime.now().isoformat()]. *)
Definition build_export (now : pystr) (repos : list json) : result export_data :=
  rs <- mapM normalize repos ;;
  Ok {| exported_at := now;
        total_count := Z.of_nat (length repos);
        repositories := rs |}.

End Exporter.

(** ** Display width and padding: [display_width], [pad_line] *)

Module Width.

(** The values of [unicodedata.east_asian_width]. *)
Inductive eaw : Type := EA_F | EA_H | EA_W | EA_Na | EA_A | EA_N.

Definition wide_or_full (w : eaw) : bool :=
  match w with
  | EA_W | EA_F => true
  | _ => false
  end.

Definition SPACE : N := 32%N.

Section DisplayWidth.

(** The table of the Unicode database, which the script reads through
    [unicodedata]. *)
Variable east_asian_width : N -> eaw.

(** The body of the loop at line 95: the new value of [width]. *)
Definition width_step (width : Z) (char : N) : Z :=
  if (N.leb 0xFE00 char && N.leb char 0xFE0F)%bool then width
  else if N.eqb char 0x200D then width
  else if wide_or_full (east_asian_width char) then (width + 2)%Z
  else if N.ltb 0x1F300 char then (width + 2)%Z
  else (width + 1)%Z.

Definition display_width (s : pystr) : Z := fold_left width_step s 0%Z.

(** [" " * n]: no character when [n] is zero or negative. *)
Definition spaces (n : Z) : pystr := repeat SPACE (Z.to_nat n).

Definition pad_line (content : pystr) (total_width : Z) : pystr :=
  let current_width := display_width content in
  let padding_needed := (total_width - current_width)%Z in
  content ++ spaces padding_needed.

(** The measurement as the specification words it: the width each
    character contributes, and their sum. *)
Definition is_variation_selector (c : N) : bool :=
  (N.leb 0xFE00 c && N.leb c 0xFE0F)%bool.

Definition is_zwj (c : N) : bool := N.eqb c 0x200D.

Definition char_width_spec (c : N) : Z :=
  if is_variation_selector c then 0%Z
  else if is_zwj c then 0%Z
  else match east_asian_width c with
       | EA_W | EA_F => 2%Z
       | _ => if N.ltb 0x1F300 c then 2%Z else 1%Z
       end.

Definition display_width_spec (s : pystr) : Z :=
  fold_right (fun c acc => (char_width_spec c + acc)%Z) 0%Z s.

End DisplayWidth.

(** ASCII letters, [A]-[Z] and [a]-[z]. *)
Definition ascii_letter (c : N) : bool :=
  ((N.leb 65 c && N.leb c 90) || (N.leb 97 c && N.leb c 122))%bool.

End Width.

(** ** Aggregation and rendering: [print_recap] *)

Module Recap.

(** A record of [export_data["repositories"]] with the field types of the
    data model: what [print_recap] expects to read. *)
Record CanonicalRecord : Type := mk_record {
  name : pystr;
  description : option pystr;
  url : pystr;
  language : option pystr;
  stars : Z;
  forks : Z;
  open_issues : Z;
  topics : list pystr;
  created_at : option pystr;
  updated_at : option pystr;
  starred_at : option pystr;
  archived : bool;
  owner : option pystr;
  owner_type : option pystr;
  license : option pystr;
  homepage : option pystr
}.

(** Reading a normalized dictionary at those types. *)
Definition as_str (v : json) : option pystr :=
  match v with JStr s => Some s | _ => None end.

Definition as_opt_str (v : json) : option (option pystr) :=
  match v with
  | JNull => Some None
  | JStr s => Some (Some s)
  | _ => None
  end.

Definition as_int (v : json) : option Z :=
  match v with JNum n => Some n | _ => None end.

Definition as_bool (v : json) : option bool :=
  match v with JBool b => Some b | _ => None end.

Fixpoint all_str (l : list json) : option (list pystr) :=
  match l with
  | [] => Some []
  | v :: l' =>
      match as_str v, all_str l' with
      | Some s, Some ss => Some (s :: ss)
      | _, _ => None
      end
  end.

Definition as_str_list (v : json) : option (list pystr) :=
  match v with JArr l => all_str l | _ => None end.

Definition obind {A B} (m : option A) (k : A -> option B) : option B :=
  match m with Some a => k a | None => None end.

Definition typed (d : Normalizer.repo_data) : option CanonicalRecord :=
  obind (as_str (Normalizer.name d)) (fun v_name =>
  obind (as_opt_str (Normalizer.description d)) (fun v_description =>
  obind (as_str (Normalizer.url d)) (fun v_url =>
  obind (as_opt_str (Normalizer.language d)) (fun v_language =>
  obind (as_int (Normalizer.stars d)) (fun v_stars =>
  obind (as_int (Normalizer.forks d)) (fun v_forks =>
  obind (as_int (Normalizer.open_issues d)) (fun v_open_issues =>
  obind (as_str_list (Normalizer.topics d)) (fun v_topics =>
  obind (as_opt_str (Normalizer.created_at d)) (fun v_created_at =>
  obind (as_opt_str (Normalizer.updated_at d)) (fun v_updated_at =>
  obind (as_opt_str (Normalizer.starred_at d)) (fun v_starred_at =>
  obind (as_bool (Normalizer.archived d)) (fun v_archived =>
  obind (as_opt_str (Normalizer.owner d)) (fun v_owner =>
  obind (as_opt_str (Normalizer.owner_type d)) (fun v_owner_type =>
  obind (as_opt_str (Normalizer.license d)) (fun v_license =>
  obind (as_opt_str (Normalizer.homepage d)) (fun v_homepage =>
  Some {| name := v_name; description := v_description; url := v_url;
          language := v_language; stars := v_stars; forks := v_forks;
          open_issues := v_open_issues; topics := v_topics;
          created_at := v_created_at; updated_at := v_updated_at;
          starred_at := v_starred_at; archived := v_archived;
          owner := v_owner; owner_type := v_owner_type;
          license := v_license; homepage := v_homepage |})))))))))))))))).

(** Truth value of a [str]-or-[None] field. *)
Definition truthy_str (v : option pystr) : bool :=
  match v with
  | Some (_ :: _) => true
  | _ => false
  end.

(** [v or ""] *)
Definition or_empty (v : option pystr) : pystr :=
  match v with
  | Some (c :: s) => c :: s
  | _ => []
  end.

Definition opt_str_eqb (a b : option pystr) : bool :=
  match a, b with
  | Some s, Some t => str_eqb s t
  | None, None => true
  | _, _ => false
  end.

(** [s < t] on strings: lexicographic on code points. *)
Fixpoint str_ltb (s t : pystr) : bool :=
  match s, t with
  | _, [] => false
  | [], _ :: _ => true
  | a :: s', b :: t' =>
      if N.ltb a b then true
      else if N.eqb a b then str_ltb s' t'
      else false
  end.

(** *** [collections.Counter]

    A [Counter] is a dictionary from keys to counts, in the order the keys
    were first seen. *)
Section Counter.

Context {K : Type} (eqb : K -> K -> bool).

Fixpoint counter_add (k : K) (c : list (K * nat)) : list (K * nat) :=
  match c with
  | [] => [(k, 1)]
  | (k', n) :: c' =>
      if eqb k' k then (k', S n) :: c' else (k', n) :: counter_add k c'
  end.

Definition Counter (items : list K) : list (K * nat) :=
  fold_left (fun c k => counter_add k c) items [].

Fixpoint counter_get (k : K) (c : list (K * nat)) : nat :=
  match c with
  | [] => 0
  | (k', n) :: c' => if eqb k' k then n else counter_get k c'
  end.

End Counter.

Definition counter_total {K} (c : list (K * nat)) : nat :=
  fold_right (fun kn acc => snd kn + acc) 0 c.

(** *** [sorted]

    Python's sort is stable, also under [reverse=True]: records with equal
    keys keep their original order.  For a total order on the keys that
    fixes the result; insertion from the right computes it. *)
Section Sorted.

Context {A K : Type} (ltb : K -> K -> bool) (key : A -> K).

Fixpoint insert_desc (x : A) (l : list A) : list A :=
  match l with
  | [] => [x]
  | y :: l' =>
      if ltb (key x) (key y) then y :: insert_desc x l' else x :: y :: l'
  end.

(** [sorted(l, key=key, reverse=True)] *)
Definition sorted_desc (l : list A) : list A := fold_right insert_desc [] l.

Fixpoint insert_asc (x : A) (l : list A) : list A :=
  match l with
  | [] => [x]
  | y :: l' =>
      if ltb (key y) (key x) then y :: insert_asc x l' else x :: y :: l'
  end.

(** [sorted(l, key=key)] *)
Definition sorted_asc (l : list A) : list A := fold_right insert_asc [] l.

End Sorted.

(** [c.most_common(n)] *)
Definition most_common {K} (n : nat) (c : list (K * nat)) : list (K * nat) :=
  firstn n (sorted_desc Nat.ltb snd c).

(** Line 132 *)
Definition languages (repos : list CanonicalRecord) : list (option pystr * nat) :=
  Counter opt_str_eqb
    (map language (filter (fun r => truthy_str (language r)) repos)).

(** Line 143 *)
Definition by_stars (repos : list CanonicalRecord) : list CanonicalRecord :=
  firstn 10 (sorted_desc Z.ltb stars repos).

(** Line 155 *)
Definition updated_key (r : CanonicalRecord) : pystr := or_empty (updated_at r).

Definition sorted_by_updated (repos : list CanonicalRecord) : list CanonicalRecord :=
  sorted_desc str_ltb updated_key repos.

Definition by_updated (repos : list CanonicalRecord) : list CanonicalRecord :=
  firstn 10 (sorted_by_updated repos).

End Recap.

Module Render.

Import Recap.

(** *** Format specifications *)

Fixpoint uint_digits (d : Decimal.uint) : pystr :=
  match d with
  | Decimal.Nil => []
  | Decimal.D0 d' => 48%N :: uint_digits d'
  | Decimal.D1 d' => 49%N :: uint_digits d'
  | Decimal.D2 d' => 50%N :: uint_digits d'
  | Decimal.D3 d' => 51%N :: uint_digits d'
  | Decimal.D4 d' => 52%N :: uint_digits d'
  | Decimal.D5 d' => 53%N :: uint_digits d'
  | Decimal.D6 d' => 54%N :: uint_digits d'
  | Decimal.D7 d' => 55%N :: uint_digits d'
  | Decimal.D8 d' => 56%N :: uint_digits d'
  | Decimal.D9 d' => 57%N :: uint_digits d'
  end.

(** The digits of [str(n)] for [n >= 0]. *)
Definition digits (n : N) : pystr := uint_digits (N.to_uint n).

(** A comma after every third digit, on the reversed digits. *)
Fixpoint commas_rev (l : pystr) : pystr :=
  match l with
  | a :: b :: c :: ((_ :: _) as rest) => a :: b :: c :: 44%N :: commas_rev rest
  | _ => l
  end.

(** [f"{n:,}"] *)
Definition fmt_comma (n : Z) : pystr :=
  (if Z.ltb n 0 then [45%N] else []) ++ rev (commas_rev (rev (digits (Z.abs_N n)))).

(** [f"{s:<w}"] *)
Definition ljust (w : nat) (s : pystr) : pystr :=
  s ++ repeat Width.SPACE (w - length s).

(** [f"{s:>w}"] *)
Definition rjust (w : nat) (s : pystr) : pystr :=
  repeat Width.SPACE (w - length s) ++ s.

(** The symbols of the panels. *)
Definition STAR : N := 0x2B50%N.
Definition FOLDER : N := 0x1F4C1%N.
Definition FORK : N := 0x1F374%N.
Definition LAPTOP : N := 0x1F4BB%N.
Definition PACKAGE : N := 0x1F4E6%N.
Definition LINK : N := 0x1F517%N.

(** *** Lines 147-151: a row of the popularity panel *)

Definition popularity_name (r : CanonicalRecord) : pystr := firstn 45 (name r).

Definition popularity_line (r : CanonicalRecord) : pystr :=
  u "  " ++ ljust 45 (popularity_name r) ++ u " " ++ [STAR] ++ u " "
    ++ rjust 10 (fmt_comma (stars r)).

(** *** Lines 159-163: a row of the recency panel *)

Definition recency_name (r : CanonicalRecord) : pystr := firstn 55 (name r).

Definition recency_line (r : CanonicalRecord) : pystr :=
  let updated := firstn 10 (or_empty (updated_at r)) in
  u "  " ++ ljust 55 (recency_name r) ++ u " " ++ updated.

(** *** Lines 202-212: the entry of one record in the full listing *)

Definition listing_name_line (r : CanonicalRecord) : pystr :=
  u "  " ++ [FOLDER] ++ u " " ++ name r.

(** Lines 205-206, for a description [d] that passed the test of line 204. *)
Definition description_line (d : pystr) : pystr :=
  let desc := firstn 74 d in
  u "     " ++ desc ++ (if Nat.ltb 74 (length d) then u "..." else []).

Definition listing_description (r : CanonicalRecord) : list pystr :=
  match description r with
  | Some (c :: d) => [description_line (c :: d)]
  | _ => []
  end.

Definition listing_stats (r : CanonicalRecord) : pystr :=
  let lang := match language r with Some (c :: s) => c :: s | _ => u "N/A" end in
  let stats :=
    u "     " ++ [STAR] ++ u " " ++ fmt_comma (stars r) ++ u "  " ++ [FORK]
      ++ u " " ++ fmt_comma (forks r) ++ u "  " ++ [LAPTOP] ++ u " " ++ lang in
  if archived r then stats ++ u "  " ++ [PACKAGE] ++ u " ARCHIVED" else stats.

Definition listing_entry (r : CanonicalRecord) : list pystr :=
  [[]; listing_name_line r] ++ listing_description r
    ++ [listing_stats r; u "     " ++ [LINK] ++ u " " ++ url r].

Section Panels.

(** The Unicode database again: the width table and [str.lower]. *)
Variable east_asian_width : N -> Width.eaw.
Variable lower : pystr -> pystr.

Definition boxed (line : pystr) (w : Z) : pystr :=
  u "|" ++ Width.pad_line east_asian_width line w ++ u "|".

(** Lines 144-152 *)
Definition popularity_panel (repos : list CanonicalRecord) : list pystr :=
  map (fun r => boxed (popularity_line r) 70) (by_stars repos).

(** Lines 156-164 *)
Definition recency_panel (repos : list CanonicalRecord) : list pystr :=
  map (fun r => boxed (recency_line r) 70) (by_updated repos).

(** Lines 201-212 *)
Definition full_listing (repos : list CanonicalRecord) : list pystr :=
  flat_map listing_entry
    (sorted_asc str_ltb (fun r => lower (name r)) repos).

End Panels.

End Render.

(** ** The run: [get_starred_repos], [export_to_json], [main] *)

Module Pipeline.

Import Exporter.

(** What [requests.get] hands back: the status code and, when the body is
    JSON, its parsed value. *)
Record response : Type := mk_response {
  status_code : Z;
  body : option json
}.

(** The world around one run: the answer of the endpoint to the request
    for each page, the clock, and whether the destination can be opened
    for writing. *)
Record env : Type := mk_env {
  server : Z -> response;
  now : pystr;
  writable : bool
}.

(** What a run does to the world, in order.  [WriteFile] is the
    destination holding the whole text of a document; [WriteTruncated] is
    the destination opened, which empties it, and left with a proper
    prefix of that text; [Exported] is the confirmation line; [Recap] is
    the call of [print_recap], which only prints. *)
Inductive event : Type :=
| Request (page : Z)
| Progress (page : Z) (total : nat)
| WriteFile (filename : pystr) (data : export_data)
| WriteTruncated (filename : pystr) (data : export_data)
| Exported (filename : pystr)
| Recap (data : export_data).

(** A lone surrogate, U+D800 to U+DFFF: the one character that the UTF-8
    codec of the destination refuses. *)
Definition is_surrogate (c : N) : bool :=
  (N.leb 0xD800 c && N.leb c 0xDFFF)%bool.

Definition str_encodable (s : pystr) : bool :=
  forallb (fun c => negb (is_surrogate c)) s.

(** Every string of a value, the keys of its dictionaries among them. *)
Fixpoint encodable (v : json) : bool :=
  match v with
  | JStr s => str_encodable s
  | JArr l => forallb encodable l
  | JObj d =>
      forallb (fun kv : pystr * json =>
                 let (k, w) := kv in (str_encodable k && encodable w)%bool) d
  | _ => true
  end.

Definition record_encodable (r : Normalizer.repo_data) : bool :=
  forallb encodable
    [ Normalizer.name r; Normalizer.description r; Normalizer.url r;
      Normalizer.language r; Normalizer.stars r; Normalizer.forks r;
      Normalizer.open_issues r; Normalizer.topics r;
      Normalizer.created_at r; Normalizer.updated_at r;
      Normalizer.starred_at r; Normalizer.archived r; Normalizer.owner r;
      Normalizer.owner_type r; Normalizer.license r; Normalizer.homepage r ].

(** A document that [json.dump(..., ensure_ascii=False)] can write to a
    UTF-8 file from its first character to its last. *)
Definition doc_encodable (data : export_data) : bool :=
  (str_encodable (exported_at data)
   && forallb record_encodable (repositories data))%bool.

(** [response.raise_for_status()] raises for the 4xx and 5xx codes. *)
Definition is_error_status (r : response) : bool :=
  (Z.leb 400 (status_code r) && Z.ltb (status_code r) 600)%bool.

(** [repos.extend(data)]: the elements of a list, the keys of a dictionary,
    the characters of a string; a number is not iterable. *)
Definition extend (repos : list json) (data : json) : result (list json) :=
  match data with
  | JArr l => Ok (repos ++ l)
  | JObj d => Ok (repos ++ map (fun kv => JStr (fst kv)) d)
  | JStr s => Ok (repos ++ map (fun c => JStr [c]) s)
  | _ => Raise TypeError
  end.

(** The state of a run: the events so far and, once it has stopped, how. *)
Definition run (A : Type) : Type := (list event * option (result A))%type.

(** Lines 29-44.  [fuel] bounds the number of passes through [while True];
    [None] is a loop that has not stopped yet. *)
Fixpoint fetch_loop (fuel : nat) (srv : Z -> response) (page : Z)
    (repos : list json) (tr : list event) : run (list json) :=
  match fuel with
  | O => (tr, None)
  | S fuel' =>
      let resp := srv page in
      let tr1 := tr ++ [Request page] in
      if is_error_status resp then (tr1, Some (Raise HTTPError))
      else
        match body resp with
        | None => (tr1, Some (Raise JSONDecodeError))
        | Some data =>
            if negb (truthy data) then (tr1, Some (Ok repos))
            else
              match extend repos data with
              | Raise e => (tr1, Some (Raise e))
              | Ok repos' =>
                  fetch_loop fuel' srv (page + 1)%Z repos'
                    (tr1 ++ [Progress page (length repos')])
              end
        end
  end.

Definition get_starred_repos (fuel : nat) (srv : Z -> response) : run (list json) :=
  fetch_loop fuel srv 1%Z [] [].

(** Lines 47-89: the document is built, then the file is opened and the
    document written into it piece by piece.  A string with a lone
    surrogate stops [json.dump] with [UnicodeEncodeError] where it stands:
    the file keeps what was written before it, and line 88 is not
    reached. *)
Definition export_to_json (e : env) (repos : list json) (filename : pystr)
    (tr : list event) : run export_data :=
  match build_export (now e) repos with
  | Raise x => (tr, Some (Raise x))
  | Ok export_data =>
      if writable e then
        if doc_encodable export_data then
          (tr ++ [WriteFile filename export_data; Exported filename],
           Some (Ok export_data))
        else
          (tr ++ [WriteTruncated filename export_data],
           Some (Raise UnicodeEncodeError))
      else (tr, Some (Raise OSError))
  end.

Definition OUTPUT_JSON : pystr := u "starred_repos.json".

(** Lines 219-227.  [main] returns nothing: it fetches, exports and hands
    the document to [print_recap], whose exception, if it raises one, is
    the end of the run.  [print_recap] only prints; what it does on a
    given document is taken as given here ([Render] has its rows for
    records of the data model's types).  Of the lines printed on the way,
    the trace keeps the progress lines and the "Exported to" line. *)
Definition main (print_recap : export_data -> result unit) (fuel : nat)
    (e : env) : run unit :=
  match get_starred_repos fuel (server e) with
  | (tr, None) => (tr, None)
  | (tr, Some (Raise x)) => (tr, Some (Raise x))
  | (tr, Some (Ok repos)) =>
      match export_to_json e repos OUTPUT_JSON tr with
      | (tr', None) => (tr', None)
      | (tr', Some (Raise x)) => (tr', Some (Raise x))
      | (tr', Some (Ok export_data)) =>
          (tr' ++ [Recap export_data], Some (print_recap export_data))
      end
  end.

(** An event that leaves the destination changed. *)
Definition is_write (ev : event) : bool :=
  match ev with
  | WriteFile _ _ | WriteTruncated _ _ => true
  | _ => false
  end.

(** The pages asked for during a run. *)
Definition requested (tr : list event) : list Z :=
  flat_map (fun ev => match ev with Request p => [p] | _ => [] end) tr.

End Pipeline.

(** ** Aggregation, continued: lines 136, 166-183 of [print_recap] *)

Module Stats.

Import Recap.

(** Line 136: the languages shown in the panel. *)
Definition top_languages (repos : list CanonicalRecord) : list (option pystr * nat) :=
  most_common 10 (languages repos).

(** Lines 167-169: every record's topics, one after the other. *)
Definition all_topics (repos : list CanonicalRecord) : list pystr :=
  flat_map topics repos.

(** Line 170 *)
Definition topic_counts (repos : list CanonicalRecord) : list (pystr * nat) :=
  Counter str_eqb (all_topics repos).

(** Line 171: the panel is printed when the counter is not empty. *)
Definition topics_panel_shown (repos : list CanonicalRecord) : bool :=
  match topic_counts repos with
  | [] => false
  | _ :: _ => true
  end.

(** Line 175 *)
Definition top_topics (repos : list CanonicalRecord) : list (pystr * nat) :=
  most_common 15 (topic_counts repos).

(** Line 181 *)
Definition archived_count (repos : list CanonicalRecord) : nat :=
  length (filter archived repos).

Definition ORGANIZATION : pystr := u "Organization".

(** Line 182: [r["owner_type"] == "Organization"] *)
Definition is_organization (r : CanonicalRecord) : bool :=
  opt_str_eqb (owner_type r) (Some ORGANIZATION).

Definition orgs (repos : list CanonicalRecord) : nat :=
  length (filter is_organization repos).

(** Line 183 *)
Definition users (repos : list CanonicalRecord) : Z :=
  (Z.of_nat (length repos) - Z.of_nat (orgs repos))%Z.

End Stats.

(** * Specification-side definitions and sample inputs *)

(** ** The Normalizer, as specified *)

Module NormalizerSpec.

Import Normalizer Exporter.
Local Open Scope py_scope.

(** [d.get(k, dflt)] seen from the dictionary: the stored value, whatever
    it is, when the key is there. *)
Definition present_or (dflt : json) (raw : option json) : json :=
  match raw with
  | Some v => v
  | None => dflt
  end.


(** The repository object of a raw entry: the value under the wrapper key
    when the entry has one, the entry itself when it has not. *)
Definition repo_source (item : json) : option (list (pystr * json)) :=
  match item with
  | JObj di =>
      match dict_lookup (u "repo") di with
      | Some (JObj d) => Some d
      | Some _ => None
      | None => Some di
      end
  | _ => None
  end.

(** The star timestamp of a raw entry. *)
Definition raw_starred_at (item : json) : json :=
  match item with
  | JObj di =>
      match dict_lookup (u "repo") di with
      | Some _ => present_or JNull (dict_lookup (u "starred_at") di)
      | None => JNull
      end
  | _ => JNull
  end.






(** Raw entries used below. *)
Definition wrapper_entry : json :=
  JObj [ (u "repo", JObj [ (u "full_name", JStr (u "a/b"));
                           (u "html_url", JStr (u "https://x"));
                           (u "stargazers_count", JNum 5) ]);
         (u "starred_at", JStr (u "2024-01-01T00:00:00Z")) ].

Definition bare_entry : json :=
  JObj [ (u "full_name", JStr (u "c/d"));
         (u "html_url", JStr (u "https://y")) ].


Definition null_owner_entry : json :=
  JObj [ (u "full_name", JStr (u "a/b"));
         (u "html_url", JStr (u "https://x"));
         (u "owner", JNull) ].

Definition null_license_entry : json :=
  JObj [ (u "full_name", JStr (u "a/b"));
         (u "html_url", JStr (u "https://x"));
         (u "license", JNull) ].

End NormalizerSpec.

(** ** The width table, as far as the properties need it *)

Module WidthSpec.

Import Width.

(** Printable ASCII is not wide: the database gives it the class [Na]. *)
Definition ascii_narrow (east_asian_width : N -> eaw) : Prop :=
  forall c, (32 <= c <= 126)%N -> wide_or_full (east_asian_width c) = false.

(** A few rows of the database, for the examples: the CJK unified
    ideographs are wide, the fullwidth forms full, printable ASCII
    narrow. *)
Definition sample_table (c : N) : eaw :=
  if (N.leb 0x4E00 c && N.leb c 0x9FFF)%bool then EA_W
  else if (N.leb 0xFF01 c && N.leb c 0xFF60)%bool then EA_F
  else if (N.leb 32 c && N.leb c 126)%bool then EA_Na
  else EA_N.

End WidthSpec.

(** ** The aggregates, as specified *)

Module RecapSpec.

Import Recap.

(** The number of records whose language is not null. *)
Definition non_null_languages (repos : list CanonicalRecord) : nat :=
  length (filter (fun r => match language r with Some _ => true | None => false end)
            repos).

(** The number of records whose language is neither null nor empty. *)
Definition named_languages (repos : list CanonicalRecord) : nat :=
  length (filter (fun r => truthy_str (language r)) repos).

(** The number of records with a given non-empty language. *)
Definition records_in (l : option pystr) (repos : list CanonicalRecord) : nat :=
  length (filter (fun r => truthy_str (language r) && opt_str_eqb (language r) l)
            repos).


(** Sample records. *)
Definition sample_record (nm : pystr) (lang upd : option pystr) : CanonicalRecord :=
  {| name := nm; description := None; url := u "https://x";
     language := lang; stars := 0; forks := 0; open_issues := 0;
     topics := []; created_at := None; updated_at := upd;
     starred_at := None; archived := false; owner := None;
     owner_type := None; license := None; homepage := None |}.

Definition empty_language_record : CanonicalRecord :=
  sample_record (u "a/b") (Some []) None.


Definition updated_2024 : CanonicalRecord :=
  sample_record (u "a/new") None (Some (u "2024-05-01T10:00:00Z")).

Definition long_name_record : CanonicalRecord :=
  sample_record (repeat 97%N 60) None None.

End RecapSpec.

(** ** The run, as specified *)

Module PipelineSpec.

Import Pipeline.

(** A page that lets the fetch go on: a success status and a non-empty
    list of entries. *)
Definition full_page (r : response) : Prop :=
  is_error_status r = false /\
  exists x l, body r = Some (JArr (x :: l)).

(** An endpoint with one page of one entry, then a server error. *)
Definition failing_server (page : Z) : response :=
  if Z.eqb page 1 then
    {| status_code := 200; body := Some (JArr [NormalizerSpec.bare_entry]) |}
  else {| status_code := 502; body := None |}.

(** An endpoint with one page of one entry, then the empty page. *)
Definition one_page_server (page : Z) : response :=
  if Z.eqb page 1 then
    {| status_code := 200; body := Some (JArr [NormalizerSpec.bare_entry]) |}
  else {| status_code := 200; body := Some (JArr []) |}.

Definition sample_env (srv : Z -> response) : env :=
  {| server := srv; now := u "2024-06-01T12:00:00"; writable := true |}.

(** A success status: 2xx. *)
Definition is_success_status (r : response) : bool :=
  (Z.leb 200 (status_code r) && Z.ltb (status_code r) 300)%bool.

(** An endpoint that answers the first page 304 with one entry in the
    body, then the empty page. *)
Definition not_modified_server (page : Z) : response :=
  if Z.eqb page 1 then
    {| status_code := 304; body := Some (JArr [NormalizerSpec.bare_entry]) |}
  else {| status_code := 200; body := Some (JArr []) |}.

(** A [print_recap] that prints and returns. *)
Definition quiet_recap (data : Exporter.export_data) : result unit := Ok tt.

(** What follows the fetch in a run that reaches the destination: the
    whole document, the confirmation line and the recap, or a truncated
    document. *)
Definition after_fetch (data : Exporter.export_data) (rest : list event) : Prop :=
  rest = [WriteFile OUTPUT_JSON data; Exported OUTPUT_JSON; Recap data] \/
  rest = [WriteTruncated OUTPUT_JSON data].

End PipelineSpec.

(** ** Inputs of the further properties *)

Module MoreSpec.

Import Recap Pipeline.

(** A string of printable ASCII characters. *)
Definition printable (s : pystr) : Prop :=
  Forall (fun c => (32 <= c <= 126)%N) s.

(** A character that [display_width] passes over. *)
Definition zero_width (c : N) : bool :=
  (Width.is_variation_selector c || Width.is_zwj c)%bool.

(** The entries of a page: the elements of the list in its body. *)
Definition page_entries (r : response) : list json :=
  match body r with
  | Some (JArr l) => l
  | _ => []
  end.

(** The entries of the [n] pages from [page] on, in page order. *)
Definition entries_from (srv : Z -> response) (page : Z) (n : nat) : list json :=
  flat_map (fun i => page_entries (srv (page + Z.of_nat i)%Z)) (seq 0 n).

(** The page that ends the fetch: a success status and a body that is
    false, the empty list among them. *)
Definition last_page (r : response) : Prop :=
  is_error_status r = false /\
  exists data, body r = Some data /\ truthy data = false.

(** The page numbers [page], [page + 1], ... ([n] of them). *)
Definition pages (page : Z) (n : nat) : list Z :=
  map (fun i => (page + Z.of_nat i)%Z) (seq 0 n).

(** An endpoint that never runs out of entries. *)
Definition endless_server (page : Z) : response :=
  {| status_code := 200; body := Some (JArr [NormalizerSpec.bare_entry]) |}.

(** An endpoint whose only entry has no name. *)
Definition nameless_server (page : Z) : response :=
  if Z.eqb page 1 then
    {| status_code := 200;
       body := Some (JArr [JObj [(u "html_url", JStr (u "https://x"))]]) |}
  else {| status_code := 200; body := Some (JArr []) |}.

End MoreSpec.



(** * Properties *)

(** ** The Normalizer *)

Module NormalizerFacts.

Import Normalizer Exporter NormalizerSpec.
Local Open Scope py_scope.

Lemma get_obj d k dflt :
  get (JObj d) k dflt = Ok (present_or dflt (dict_lookup k d)).
Proof. reflexivity. Qed.






(** Line 58 onwards on an entry whose repository object is [d]. *)
Lemma split_item_source item d :
  repo_source item = Some d ->
  split_item item = Ok (JObj d, raw_starred_at item).
Proof.
  destruct item as [| | | | |di]; try discriminate.
  unfold repo_source, split_item, raw_starred_at, contains, getitem.
  destruct (dict_lookup (u "repo") di) as [[| | | | |d']|];
    try discriminate; intros [= <-]; reflexivity.
Qed.

Lemma normalize_source item d :
  repo_source item = Some d ->
  normalize item = build_repo_data (JObj d) (raw_starred_at item).
Proof.
  intros Hs. unfold normalize. rewrite (split_item_source _ _ Hs). reflexivity.
Qed.





(** C2.  An entry with name and url whose [owner] is present and null
    raises [AttributeError] at line 78, while the same entry with a null
    [license] is normalized, line 80 testing the nested object first. *)
Theorem null_owner_raises :
  normalize null_owner_entry = Raise AttributeError /\
  exists r, normalize null_license_entry = Ok r /\ license r = JNull.
Proof.
  split; [reflexivity|]. eexists. split; reflexivity.
Qed.

(** The record of the bare sample entry has the field types that
    [print_recap] reads. *)
Example bare_entry_typed :
  exists d r,
    normalize bare_entry = Ok d /\
    Recap.typed d = Some r /\
    Recap.name r = u "c/d" /\
    Recap.stars r = 0%Z /\
    Recap.language r = None /\
    Recap.topics r = [].
Proof. do 2 eexists. repeat split. Qed.

(** C5.  The shape is told by the presence of the wrapper key, and the two
    sample entries give two records: "a/b" starred at the given time with
    5 stars, then "c/d" with a null [starred_at] and 0 stars. *)
Theorem shape_by_wrapper_key :
  (forall di,
     split_item (JObj di) =
     match dict_lookup (u "repo") di with
     | Some r => Ok (r, present_or JNull (dict_lookup (u "starred_at") di))
     | None => Ok (JObj di, JNull)
     end) /\
  exists r1 r2,
    mapM normalize [wrapper_entry; bare_entry] = Ok [r1; r2] /\
    name r1 = JStr (u "a/b") /\
    starred_at r1 = JStr (u "2024-01-01T00:00:00Z") /\
    stars r1 = JNum 5 /\
    name r2 = JStr (u "c/d") /\
    starred_at r2 = JNull /\
    stars r2 = JNum 0.
Proof.
  split.
  - intros di. unfold split_item, contains, getitem.
    destruct (dict_lookup (u "repo") di); reflexivity.
  - do 2 eexists. split; [reflexivity|]. repeat split.
Qed.

End NormalizerFacts.

(** ** Display width and padding *)

Module WidthFacts.

Import Width WidthSpec.

Section WithTable.

Variable east_asian_width : N -> eaw.

#[local] Abbreviation dw := (display_width east_asian_width).
#[local] Abbreviation cw := (char_width_spec east_asian_width).

Lemma width_step_char_width width c :
  width_step east_asian_width width c = (width + cw c)%Z.
Proof.
  unfold width_step, char_width_spec, is_variation_selector, is_zwj, wide_or_full.
  destruct (N.leb 0xFE00 c && N.leb c 0xFE0F)%bool; [lia|].
  destruct (N.eqb c 0x200D); [lia|].
  destruct (east_asian_width c); try lia;
    destruct (N.ltb 0x1F300 c); lia.
Qed.

Lemma fold_width_step s : forall width,
  fold_left (width_step east_asian_width) s width
  = (width + display_width_spec east_asian_width s)%Z.
Proof.
  induction s as [|c s IH]; intros width; simpl.
  - lia.
  - rewrite IH, width_step_char_width. lia.
Qed.

Lemma display_width_sum s : dw s = display_width_spec east_asian_width s.
Proof. unfold display_width. rewrite fold_width_step. lia. Qed.

Lemma display_width_app s t : dw (s ++ t) = (dw s + dw t)%Z.
Proof.
  unfold display_width. rewrite fold_left_app, !fold_width_step. lia.
Qed.

Lemma narrow_char_width c :
  ascii_narrow east_asian_width -> (32 <= c <= 126)%N -> cw c = 1%Z.
Proof.
  intros Hn Hc. unfold char_width_spec, is_variation_selector, is_zwj.
  pose proof (Hn c Hc) as Hw. unfold wide_or_full in Hw.
  destruct (N.leb_spec 0xFE00 c); [lia|]. simpl.
  destruct (N.eqb_spec c 0x200D); [lia|].
  destruct (N.ltb_spec 0x1F300 c); [lia|].
  destruct (east_asian_width c); try reflexivity; discriminate.
Qed.

Lemma display_width_spaces n :
  ascii_narrow east_asian_width -> dw (spaces n) = Z.of_nat (Z.to_nat n).
Proof.
  intros Hn. unfold spaces. rewrite display_width_sum.
  induction (Z.to_nat n) as [|k IH]; [reflexivity|].
  cbn [repeat display_width_spec fold_right].
  change (fold_right (fun c acc => (cw c + acc)%Z) 0%Z (repeat SPACE k))
    with (display_width_spec east_asian_width (repeat SPACE k)).
  rewrite IH, (narrow_char_width SPACE Hn) by (unfold SPACE; lia). lia.
Qed.

End WithTable.

Lemma sample_table_narrow : ascii_narrow sample_table.
Proof.
  intros c Hc. unfold sample_table.
  destruct (N.leb_spec 0x4E00 c); [lia|].
  destruct (N.leb_spec 0xFF01 c); [lia|]. simpl.
  destruct (N.leb_spec 32 c); [|lia].
  destruct (N.leb_spec c 126); [|lia]. reflexivity.
Qed.

(** C3.  The measured width is the sum of the characters' widths: 0 for a
    variation selector, 0 for the zero-width joiner, 2 for a Wide or
    Fullwidth character, 2 above U+1F300, 1 otherwise.  With a table that
    has ASCII narrow, a string of ASCII letters measures its length; a
    string of variation selectors measures 0. *)
Theorem display_width_is_sum_of_char_widths :
  forall east_asian_width,
    (forall s,
       display_width east_asian_width s
       = display_width_spec east_asian_width s) /\
    (ascii_narrow east_asian_width ->
     forall s, forallb ascii_letter s = true ->
       display_width east_asian_width s = Z.of_nat (length s)) /\
    (forall s, forallb is_variation_selector s = true ->
       display_width east_asian_width s = 0%Z).
Proof.
  intros eaw. split; [apply display_width_sum|]. split.
  - intros Hn s. rewrite display_width_sum.
    induction s as [|c s IH]; intros Hs; [reflexivity|].
    simpl in Hs. apply andb_true_iff in Hs as [Hc Hs].
    cbn [display_width_spec fold_right length].
    change (fold_right (fun c acc => (char_width_spec eaw c + acc)%Z) 0%Z s)
      with (display_width_spec eaw s).
    rewrite (IH Hs), (narrow_char_width eaw c Hn); [lia|].
    unfold ascii_letter in Hc.
    apply orb_true_iff in Hc as [Hc|Hc];
      apply andb_true_iff in Hc as [H1 H2];
      apply N.leb_le in H1, H2; lia.
  - intros s. rewrite display_width_sum.
    induction s as [|c s IH]; intros Hs; [reflexivity|].
    simpl in Hs. apply andb_true_iff in Hs as [Hc Hs].
    cbn [display_width_spec fold_right].
    change (fold_right (fun c acc => (char_width_spec eaw c + acc)%Z) 0%Z s)
      with (display_width_spec eaw s).
    rewrite (IH Hs). unfold char_width_spec. rewrite Hc. reflexivity.
Qed.

(** C3 on the sample table: "Stars" measures 5 and three variation
    selectors measure 0. *)
Lemma display_width_is_sum_of_char_widths_witness :
  display_width sample_table (u "Stars") = 5%Z /\
  display_width sample_table [0xFE0F; 0xFE00; 0xFE0F]%N = 0%Z.
Proof.
  destruct (display_width_is_sum_of_char_widths sample_table) as (_ & Ha & Hv).
  split.
  - apply (Ha sample_table_narrow (u "Stars")). reflexivity.
  - apply (Hv [0xFE0F; 0xFE00; 0xFE0F]%N). reflexivity.
Defined.

(** C4.  With a table that has ASCII narrow, content no wider than the
    target comes back followed by as many spaces as the target exceeds its
    width, and nothing else, so that the line measures exactly the target
    width; [pad_line("AB", 5)] is "AB" followed by three spaces. *)
Theorem pad_line_reaches_target :
  forall east_asian_width,
    ascii_narrow east_asian_width ->
    (forall content target,
       (display_width east_asian_width content <= target)%Z ->
       pad_line east_asian_width content target
       = content
           ++ repeat SPACE
                (Z.to_nat (target - display_width east_asian_width content)) /\
       display_width east_asian_width (pad_line east_asian_width content target)
       = target) /\
    pad_line east_asian_width (u "AB") 5 = u "AB   ".
Proof.
  intros eaw Hn. split.
  - intros content target Hle. split; [reflexivity|]. unfold pad_line.
    rewrite display_width_app, (display_width_spaces eaw _ Hn). lia.
  - unfold pad_line.
    assert (Hab : display_width eaw (u "AB") = 2%Z).
    { rewrite display_width_sum. change (u "AB") with [65; 66]%N.
      cbn [display_width_spec fold_right].
      rewrite !(narrow_char_width eaw _ Hn) by lia. reflexivity. }
    rewrite Hab. reflexivity.
Qed.

(** C4 on the sample table: a wide character and a letter, padded to 6. *)
Lemma pad_line_reaches_target_witness :
  pad_line sample_table [0x4E2D; 65]%N 6 = [0x4E2D; 65; 32; 32; 32]%N /\
  display_width sample_table (pad_line sample_table [0x4E2D; 65]%N 6) = 6%Z /\
  pad_line sample_table (u "AB") 5 = u "AB   ".
Proof.
  destruct (pad_line_reaches_target sample_table sample_table_narrow)
    as (Hpad & Hab).
  destruct (Hpad [0x4E2D; 65]%N 6%Z) as (Hshape & Hwidth);
    [vm_compute; discriminate|].
  split; [rewrite Hshape; reflexivity|]. split; [exact Hwidth | exact Hab].
Defined.

(** C10.  Content wider than the target comes back unchanged: the negative
    amount gives no space, nothing is raised, nothing is cut. *)
Theorem pad_line_keeps_wide_content :
  forall east_asian_width content target,
    (target < display_width east_asian_width content)%Z ->
    pad_line east_asian_width content target = content.
Proof.
  intros eaw content target Hlt. unfold pad_line, spaces.
  replace (Z.to_nat (target - display_width eaw content)) with 0%nat by lia.
  apply app_nil_r.
Qed.

(** C10 on "ABCDEF" with target 3. *)
Lemma pad_line_keeps_wide_content_witness :
  pad_line sample_table (u "ABCDEF") 3 = u "ABCDEF".
Proof.
  apply (pad_line_keeps_wide_content sample_table (u "ABCDEF") 3).
  vm_compute. reflexivity.
Defined.

End WidthFacts.

(** ** Aggregation *)

Module RecapFacts.

Import Recap RecapSpec.

Lemma str_eqb_eq s : forall t, str_eqb s t = true <-> s = t.
Proof.
  induction s as [|a s IH]; intros [|b t]; simpl; split; intros H;
    try reflexivity; try discriminate.
  - apply andb_true_iff in H as [Hab Hst].
    apply N.eqb_eq in Hab. apply IH in Hst. congruence.
  - injection H as -> ->. rewrite N.eqb_refl. simpl. now apply IH.
Qed.

Lemma opt_str_eqb_eq a b : opt_str_eqb a b = true <-> a = b.
Proof.
  destruct a as [s|], b as [t|]; simpl; split; intros H;
    try reflexivity; try discriminate.
  - apply str_eqb_eq in H. congruence.
  - injection H as ->. now apply str_eqb_eq.
Qed.

Section CounterFacts.

Context {K : Type} (eqb : K -> K -> bool).
Hypothesis eqb_eq : forall a b, eqb a b = true <-> a = b.

Lemma eqb_refl a : eqb a a = true.
Proof. now apply eqb_eq. Qed.

Lemma eqb_sym a b : eqb a b = eqb b a.
Proof.
  destruct (eqb a b) eqn:Hab, (eqb b a) eqn:Hba; try reflexivity.
  - apply eqb_eq in Hab. subst. rewrite eqb_refl in Hba. discriminate.
  - apply eqb_eq in Hba. subst. rewrite eqb_refl in Hab. discriminate.
Qed.

Lemma counter_total_add (k : K) c :
  counter_total (counter_add eqb k c) = S (counter_total c).
Proof.
  induction c as [|[k' n] c IH]; simpl; [reflexivity|].
  destruct (eqb k' k); simpl; [reflexivity|]. rewrite IH. lia.
Qed.

Lemma counter_total_fold items : forall c,
  counter_total (fold_left (fun c k => counter_add eqb k c) items c)
  = length items + counter_total c.
Proof.
  induction items as [|k items IH]; intros c; simpl; [reflexivity|].
  rewrite IH, counter_total_add. lia.
Qed.

Lemma counter_get_add k k' c :
  counter_get eqb k (counter_add eqb k' c)
  = (if eqb k' k then 1 else 0) + counter_get eqb k c.
Proof.
  induction c as [|[k1 n] c IH]; simpl.
  - destruct (eqb k' k); reflexivity.
  - destruct (eqb k1 k') eqn:H1; simpl.
    + apply eqb_eq in H1. subst k1. destruct (eqb k' k); reflexivity.
    + destruct (eqb k1 k) eqn:H2; [|apply IH].
      apply eqb_eq in H2. subst k1. rewrite eqb_sym, H1. reflexivity.
Qed.

Lemma counter_get_fold k items : forall c,
  counter_get eqb k (fold_left (fun c k' => counter_add eqb k' c) items c)
  = length (filter (fun k' => eqb k' k) items) + counter_get eqb k c.
Proof.
  induction items as [|k' items IH]; intros c; simpl; [reflexivity|].
  rewrite IH, counter_get_add. destruct (eqb k' k); simpl; lia.
Qed.

End CounterFacts.

Lemma filter_map_filter {A B} (f : A -> B) (p : A -> bool) (q : B -> bool) l :
  length (filter q (map f (filter p l)))
  = length (filter (fun x => p x && q (f x)) l).
Proof.
  induction l as [|x l IH]; simpl; [reflexivity|].
  destruct (p x); simpl; [|exact IH].
  destruct (q (f x)); simpl; rewrite IH; reflexivity.
Qed.

Lemma no_records_in_falsy l repos :
  truthy_str l = false -> records_in l repos = 0.
Proof.
  intros Hl. unfold records_in.
  induction repos as [|r repos IH]; simpl; [reflexivity|].
  destruct (truthy_str (language r)) eqn:Ht; simpl; [|exact IH].
  destruct (opt_str_eqb (language r) l) eqn:He; [|exact IH].
  apply opt_str_eqb_eq in He. congruence.
Qed.

(** C6, as amended.  The histogram counts the records of each language
    that is neither null nor the empty string, its counts add up to the
    number of such records, and neither null nor the empty string is one
    of its keys. *)
Theorem language_histogram_counts_named :
  forall repos,
    counter_total (languages repos) = named_languages repos /\
    (forall l, counter_get opt_str_eqb l (languages repos) = records_in l repos) /\
    counter_get opt_str_eqb None (languages repos) = 0 /\
    counter_get opt_str_eqb (Some []) (languages repos) = 0.
Proof.
  intros repos.
  assert (Hget : forall l,
    counter_get opt_str_eqb l (languages repos) = records_in l repos).
  { intros l. unfold languages, Counter.
    rewrite (counter_get_fold _ opt_str_eqb_eq). simpl.
    rewrite filter_map_filter. unfold records_in. lia. }
  split; [|split; [exact Hget|split]].
  - unfold languages, Counter.
    rewrite counter_total_fold, length_map. unfold named_languages. simpl. lia.
  - rewrite Hget. apply no_records_in_falsy. reflexivity.
  - rewrite Hget. apply no_records_in_falsy. reflexivity.
Qed.

(** C6, as stated, fails: a record whose language is the empty string is
    not null and yet is not counted. *)
Lemma empty_language_not_counted :
  counter_total (languages [empty_language_record])
  <> non_null_languages [empty_language_record].
Proof. vm_compute. discriminate. Qed.


Lemma str_ltb_nil_l t : str_ltb [] t = false -> t = [].
Proof. destruct t; [reflexivity | discriminate]. Qed.

Lemma str_ltb_asym s : forall t, str_ltb s t = true -> str_ltb t s = false.
Proof.
  induction s as [|a s IH]; intros [|b t]; simpl; intros H;
    try reflexivity; try discriminate.
  destruct (N.ltb_spec a b).
  - destruct (N.ltb_spec b a); [lia|].
    destruct (N.eqb_spec b a); [lia | reflexivity].
  - destruct (N.eqb_spec a b); [|discriminate]. subst b.
    rewrite N.ltb_irrefl, N.eqb_refl. now apply IH.
Qed.

Lemma str_ltb_negtrans s : forall t v,
  str_ltb s t = false -> str_ltb t v = false -> str_ltb s v = false.
Proof.
  induction s as [|a s IH]; intros t v Hst Htv.
  - apply str_ltb_nil_l in Hst. subst t. exact Htv.
  - destruct t as [|b t].
    + apply str_ltb_nil_l in Htv. subst v. reflexivity.
    + destruct v as [|c v]; [reflexivity|]. simpl in *.
      destruct (N.ltb_spec a b); [discriminate|].
      destruct (N.ltb_spec b c); [discriminate|].
      destruct (N.ltb_spec a c); [lia|].
      destruct (N.eqb_spec a c); [|reflexivity].
      destruct (N.eqb_spec a b); [|lia].
      destruct (N.eqb_spec b c); [|lia].
      now apply (IH t v).
Qed.

Section SortedFacts.

Context {A K : Type} (ltb : K -> K -> bool) (key : A -> K).
Hypothesis ltb_asym : forall a b, ltb a b = true -> ltb b a = false.
Hypothesis ltb_negtrans :
  forall a b c, ltb a b = false -> ltb b c = false -> ltb a c = false.

Let ge (a b : A) : Prop := ltb (key a) (key b) = false.

Lemma insert_desc_perm x l : Permutation (insert_desc ltb key x l) (x :: l).
Proof.
  induction l as [|y l IH]; simpl; [reflexivity|].
  destruct (ltb (key x) (key y)); [|reflexivity].
  rewrite IH. apply perm_swap.
Qed.

Lemma sorted_desc_perm l : Permutation (sorted_desc ltb key l) l.
Proof.
  induction l as [|x l IH]; simpl; [reflexivity|].
  rewrite insert_desc_perm. now constructor.
Qed.

Lemma insert_desc_sorted x l :
  StronglySorted ge l -> StronglySorted ge (insert_desc ltb key x l).
Proof.
  induction l as [|y l IH]; intros Hs; simpl.
  - repeat constructor.
  - inversion Hs as [|? ? Hl Hy]; subst.
    destruct (ltb (key x) (key y)) eqn:Hxy.
    + constructor; [now apply IH|].
      apply Forall_forall. intros z Hz.
      apply (Permutation_in _ (insert_desc_perm x l)) in Hz as [<-|Hz].
      * now apply ltb_asym.
      * rewrite Forall_forall in Hy. now apply Hy.
    + constructor; [exact Hs|]. constructor; [exact Hxy|].
      apply Forall_forall. intros z Hz. rewrite Forall_forall in Hy.
      exact (ltb_negtrans _ _ _ Hxy (Hy z Hz)).
Qed.

Lemma sorted_desc_sorted l : StronglySorted ge (sorted_desc ltb key l).
Proof.
  induction l as [|x l IH]; simpl; [constructor|].
  now apply insert_desc_sorted.
Qed.


End SortedFacts.



End RecapFacts.

(** ** Rendering *)

Module RenderFacts.

Import Recap Render RecapSpec.

Lemma firstn_prefix {A} n (l : list A) :
  length (firstn n l) = Nat.min n (length l) /\ l = firstn n l ++ skipn n l.
Proof. split; [apply length_firstn | symmetry; apply firstn_skipn]. Qed.

(** C8, as amended.  The popularity panel shows the first 45 characters of
    a name and the recency panel the first 55, each padded to that width;
    the full listing shows the name whole; a description line is the
    first 74 characters, followed by "..." exactly when the description
    is longer than 74 characters. *)
Theorem truncation_policy :
  (forall r,
     length (popularity_name r) = Nat.min 45 (length (name r)) /\
     name r = popularity_name r ++ skipn 45 (name r) /\
     popularity_line r =
       u "  " ++ popularity_name r
         ++ repeat Width.SPACE (45 - length (popularity_name r))
         ++ u " " ++ [STAR] ++ u " " ++ rjust 10 (fmt_comma (stars r))) /\
  (forall r,
     length (recency_name r) = Nat.min 55 (length (name r)) /\
     name r = recency_name r ++ skipn 55 (name r) /\
     recency_line r =
       u "  " ++ recency_name r
         ++ repeat Width.SPACE (55 - length (recency_name r))
         ++ u " " ++ firstn 10 (or_empty (updated_at r))) /\
  (forall r, listing_name_line r = u "  " ++ [FOLDER] ++ u " " ++ name r) /\
  (forall d,
     (length d <= 74 -> description_line d = u "     " ++ d) /\
     (74 < length d ->
      description_line d = u "     " ++ firstn 74 d ++ u "..." /\
      length (firstn 74 d) = 74)).
Proof.
  split; [|split; [|split]].
  - intros r. destruct (firstn_prefix 45 (name r)) as [Hlen Hpre].
    split; [exact Hlen|]. split; [exact Hpre|].
    unfold popularity_line, ljust. now rewrite <- !app_assoc.
  - intros r. destruct (firstn_prefix 55 (name r)) as [Hlen Hpre].
    split; [exact Hlen|]. split; [exact Hpre|].
    unfold recency_line, ljust. now rewrite <- !app_assoc.
  - reflexivity.
  - intros d. unfold description_line. split; intros Hd.
    + rewrite firstn_all2 by exact Hd.
      destruct (Nat.ltb_spec 74 (length d)); [lia|]. now rewrite app_nil_r.
    + destruct (Nat.ltb_spec 74 (length d)); [|lia].
      split; [reflexivity|]. rewrite length_firstn. lia.
Qed.

(** The amended C8 on a description of 80 characters and one of 3. *)
Lemma truncation_policy_witness :
  description_line (repeat 97%N 80) = u "     " ++ repeat 97%N 74 ++ u "..." /\
  description_line (u "abc") = u "     abc".
Proof.
  destruct truncation_policy as (_ & _ & _ & Hd).
  split.
  - destruct (Hd (repeat 97%N 80)) as (_ & Hlong).
    destruct Hlong as (Heq & _); [vm_compute; lia|]. exact Heq.
  - destruct (Hd (u "abc")) as (Hshort & _).
    apply Hshort. vm_compute. lia.
Defined.

(** C8, as stated, fails: the full listing prints a name of 60 characters
    whole, not cut to 55. *)
Lemma listing_name_not_truncated :
  ~ exists shown,
      length shown <= 55 /\
      listing_name_line long_name_record = u "  " ++ [FOLDER] ++ u " " ++ shown.
Proof.
  intros (shown & Hlen & Heq). unfold listing_name_line in Heq.
  do 3 apply app_inv_head in Heq. subst shown.
  vm_compute in Hlen. lia.
Qed.

End RenderFacts.

(** ** The run *)

Module PipelineFacts.

Import Exporter Pipeline PipelineSpec.

Lemma requested_app tr1 tr2 : requested (tr1 ++ tr2) = requested tr1 ++ requested tr2.
Proof. apply flat_map_app. Qed.

(** What one call of the loop adds to the trace: requests and progress
    lines only, and an error status among the requests ends the fetch with
    [HTTPError]. *)
Lemma fetch_loop_trace srv fuel : forall page repos tr tr' out,
  fetch_loop fuel srv page repos tr = (tr', out) ->
  exists evs,
    tr' = tr ++ evs /\
    existsb is_write evs = false /\
    forall p, In p (requested evs) -> is_error_status (srv p) = true ->
      out = Some (Raise HTTPError).
Proof.
  induction fuel as [|fuel IH]; intros page repos tr tr' out H; simpl in H.
  - injection H as <- <-. exists []. rewrite app_nil_r.
    repeat split. intros p [].
  - destruct (is_error_status (srv page)) eqn:Herr.
    { injection H as <- <-. exists [Request page]. repeat split. }
    assert (Hone : forall o : option (result (list json)),
      exists evs, tr ++ [Request page] = tr ++ evs /\
        existsb is_write evs = false /\
        forall p, In p (requested evs) -> is_error_status (srv p) = true ->
          o = Some (Raise HTTPError)).
    { intros o. exists [Request page]. repeat split.
      intros p [<-|[]] Hp. congruence. }
    destruct (body (srv page)) as [data|]; [|injection H as <- <-; apply Hone].
    destruct (negb (truthy data)); [injection H as <- <-; apply Hone|].
    destruct (extend repos data) as [repos'|x]; [|injection H as <- <-; apply Hone].
    apply IH in H as (evs & -> & Hw & Hreq).
    exists ([Request page; Progress page (length repos')] ++ evs).
    split; [now rewrite <- !app_assoc|]. split.
    + rewrite existsb_app, Hw. reflexivity.
    + intros p Hp Hstat. rewrite requested_app in Hp.
      apply in_app_or in Hp as [[<-|[]]|Hp]; [congruence|].
      now apply (Hreq p).
Qed.

Lemma pages_from page n :
  [page] ++ map (fun i => (page + 1 + Z.of_nat i)%Z) (seq 0 n)
  = map (fun i => (page + Z.of_nat i)%Z) (seq 0 (S n)).
Proof.
  change (seq 0 (S n)) with (0 :: seq 1 n).
  rewrite <- seq_shift. cbn [map app]. f_equal; [lia|].
  rewrite map_map. apply map_ext. intros i. lia.
Qed.

(** A run of full pages followed by an error status stops with
    [HTTPError] once the fuel reaches the failing page. *)
Lemma fetch_loop_aborts srv n : forall fuel page repos tr,
  (forall i, i < n -> full_page (srv (page + Z.of_nat i)%Z)) ->
  is_error_status (srv (page + Z.of_nat n)%Z) = true ->
  n < fuel ->
  exists tr',
    fetch_loop fuel srv page repos tr = (tr', Some (Raise HTTPError)) /\
    requested tr' = requested tr ++ map (fun i => (page + Z.of_nat i)%Z) (seq 0 (S n)).
Proof.
  induction n as [|n IH]; intros fuel page repos tr Hfull Herr Hfuel;
    (destruct fuel as [|fuel]; [lia|]); simpl fetch_loop.
  - rewrite Z.add_0_r in Herr. rewrite Herr. eexists. split; [reflexivity|].
    rewrite requested_app. simpl. now rewrite Z.add_0_r.
  - destruct (Hfull 0) as (Hok & x & l & Hbody); [lia|].
    rewrite Z.add_0_r in Hok, Hbody. rewrite Hok, Hbody. simpl.
    destruct (IH fuel (page + 1)%Z (repos ++ x :: l)
                ((tr ++ [Request page])
                   ++ [Progress page (length (repos ++ x :: l))]))
      as (tr' & Hrun & Hreq).
    + intros i Hi. replace (page + 1 + Z.of_nat i)%Z
        with (page + Z.of_nat (S i))%Z by lia. apply Hfull. lia.
    + replace (page + 1 + Z.of_nat n)%Z with (page + Z.of_nat (S n))%Z by lia.
      exact Herr.
    + lia.
    + exists tr'. split; [exact Hrun|]. rewrite Hreq, !requested_app.
      change (requested [Request page]) with [page].
      change (requested [Progress page (length (repos ++ x :: l))]) with (@nil Z).
      rewrite app_nil_r, <- app_assoc. f_equal. apply pages_from.
Qed.

Lemma main_trace recap fuel e tr out :
  main recap fuel e = (tr, out) ->
  (exists repos data pre rest,
     get_starred_repos fuel (server e) = (pre, Some (Ok repos)) /\
     build_export (now e) repos = Ok data /\
     existsb is_write pre = false /\
     tr = pre ++ rest /\
     after_fetch data rest) \/
  (existsb is_write tr = false /\
   exists o, get_starred_repos fuel (server e) = (tr, o) /\
     (o = Some (Raise HTTPError) -> out = Some (Raise HTTPError))).
Proof.
  unfold main. destruct (get_starred_repos fuel (server e)) as [pre o] eqn:Hf.
  pose proof Hf as Hf'. unfold get_starred_repos in Hf'.
  apply fetch_loop_trace in Hf' as (evs & Hpre & Hw & _). simpl in Hpre. subst pre.
  destruct o as [[repos|x]|].
  - unfold export_to_json.
    destruct (build_export (now e) repos) as [data|x] eqn:Hb.
    + destruct (writable e).
      * destruct (doc_encodable data).
        -- intros [= <- <-]. left. exists repos, data, evs.
           exists [WriteFile OUTPUT_JSON data; Exported OUTPUT_JSON; Recap data].
           repeat split; try assumption.
           ++ now rewrite <- app_assoc.
           ++ now left.
        -- intros [= <- <-]. left. exists repos, data, evs.
           exists [WriteTruncated OUTPUT_JSON data].
           repeat split; try assumption. now right.
      * intros [= <- <-]. right. split; [exact Hw|].
        eexists. split; [reflexivity|]. discriminate.
    + intros [= <- <-]. right. split; [exact Hw|].
      eexists. split; [reflexivity|]. discriminate.
  - intros [= <- <-]. right. split; [exact Hw|].
    eexists. split; [reflexivity|]. intros [= ->]. reflexivity.
  - intros [= <- <-]. right. split; [exact Hw|].
    eexists. split; [reflexivity|]. discriminate.
Qed.

Lemma fetched_pages_ok fuel srv pre repos :
  get_starred_repos fuel srv = (pre, Some (Ok repos)) ->
  forall p, In p (requested pre) -> is_error_status (srv p) = false.
Proof.
  intros Hf p Hp. unfold get_starred_repos in Hf.
  apply fetch_loop_trace in Hf as (evs & -> & _ & Hreq). simpl in Hp.
  destruct (is_error_status (srv p)) eqn:Hs; [|reflexivity].
  specialize (Hreq p Hp Hs). discriminate.
Qed.

(** C9, as amended.  Whatever the endpoint answers, whatever [print_recap]
    does and however long the run: a page request answered with a 4xx or
    5xx status ends the run with [HTTPError] and the destination
    untouched; the destination is touched only after the fetch has
    returned, every requested page having been answered with a status
    outside 400-599, and what is written then, whole or truncated, is the
    document of all the fetched entries; and a fetch that meets such a
    status after any number of full pages does stop so, having asked for
    exactly the pages up to the failing one. *)
Theorem no_partial_snapshot :
  (forall recap fuel e tr out,
     main recap fuel e = (tr, out) ->
     (forall p, In p (requested tr) -> is_error_status (server e p) = true ->
        out = Some (Raise HTTPError) /\ existsb is_write tr = false) /\
     (existsb is_write tr = true ->
        exists repos data pre rest,
          get_starred_repos fuel (server e) = (pre, Some (Ok repos)) /\
          build_export (now e) repos = Ok data /\
          existsb is_write pre = false /\
          tr = pre ++ rest /\
          after_fetch data rest /\
          requested tr = requested pre /\
          forall p, In p (requested tr) -> is_error_status (server e p) = false)) /\
  (forall recap e n fuel,
     (forall i, i < n -> full_page (server e (1 + Z.of_nat i)%Z)) ->
     is_error_status (server e (1 + Z.of_nat n)%Z) = true ->
     n < fuel ->
     exists tr,
       main recap fuel e = (tr, Some (Raise HTTPError)) /\
       existsb is_write tr = false /\
       requested tr = map (fun i => (1 + Z.of_nat i)%Z) (seq 0 (S n))).
Proof.
  split.
  - intros recap fuel e tr out Hmain.
    destruct (main_trace _ _ _ _ _ Hmain)
      as [(repos & data & pre & rest & Hf & Hb & Hw & -> & Hrest)
         |(Hw & o & Hf & Hout)].
    + assert (Hreq : requested (pre ++ rest) = requested pre).
      { rewrite requested_app.
        destruct Hrest as [-> | ->]; simpl; now rewrite app_nil_r. }
      assert (Hpages : forall p, In p (requested (pre ++ rest)) ->
                is_error_status (server e p) = false).
      { intros p Hp. rewrite Hreq in Hp.
        exact (fetched_pages_ok _ _ _ _ Hf p Hp). }
      split.
      * intros p Hp Hs. rewrite (Hpages p Hp) in Hs. discriminate.
      * intros _. exists repos, data, pre, rest. repeat split; assumption.
    + split.
      * intros p Hp Hs. split; [|exact Hw]. apply Hout.
        unfold get_starred_repos in Hf.
        apply fetch_loop_trace in Hf as (evs & -> & _ & Hreq).
        exact (Hreq p Hp Hs).
      * intros Hw'. rewrite Hw in Hw'. discriminate.
  - intros recap e n fuel Hfull Herr Hfuel.
    destruct (fetch_loop_aborts (server e) n fuel 1%Z [] [] Hfull Herr Hfuel)
      as (tr & Hrun & Hreq).
    exists tr. unfold main, get_starred_repos. rewrite Hrun.
    split; [reflexivity|]. split; [|exact Hreq].
    apply fetch_loop_trace in Hrun as (evs & -> & Hw & _). exact Hw.
Qed.

(** The amended C9 on an endpoint that serves one page and then answers
    502. *)
Lemma no_partial_snapshot_witness :
  exists tr,
    main quiet_recap 5 (sample_env failing_server) = (tr, Some (Raise HTTPError)) /\
    existsb is_write tr = false /\
    requested tr = [1; 2]%Z.
Proof.
  destruct no_partial_snapshot as (_ & Habort).
  apply (Habort quiet_recap (sample_env failing_server) 1 5).
  - intros i Hi. assert (i = 0) as -> by lia.
    split; [reflexivity|]. eexists _, _. reflexivity.
  - reflexivity.
  - lia.
Defined.

(** C9, as stated, fails: a page answered 304, which is not a success
    status, with a list for a body is taken like any other page, and the
    run goes on to write the snapshot. *)
Lemma non_success_page_written :
  exists tr out p,
    main quiet_recap 5 (sample_env not_modified_server) = (tr, out) /\
    In p (requested tr) /\
    is_success_status (not_modified_server p) = false /\
    existsb is_write tr = true.
Proof.
  eexists _, _, 1%Z. split; [reflexivity|].
  split; [now left|]. split; reflexivity.
Qed.

(** A fetch that ends on the empty page is followed by one write of the
    whole snapshot and by the recap. *)
Example complete_run_writes_once :
  exists data,
    main quiet_recap 5 (sample_env one_page_server)
    = ([Request 1; Progress 1 1; Request 2;
        WriteFile OUTPUT_JSON data; Exported OUTPUT_JSON; Recap data],
       Some (Ok tt)) /\
    total_count data = 1%Z /\
    length (repositories data) = 1.
Proof. eexists. repeat split. Qed.

End PipelineFacts.

(** * Further properties of the code *)

(** ** [display_width], [pad_line] and the boxed rows *)

Module WidthMore.

Import Width WidthSpec WidthFacts Recap Render RecapSpec MoreSpec.

Lemma char_width_range east_asian_width c :
  (0 <= char_width_spec east_asian_width c <= 2)%Z.
Proof.
  unfold char_width_spec.
  destruct (is_variation_selector c); [lia|].
  destruct (is_zwj c); [lia|].
  destruct (east_asian_width c); try lia; destruct (N.ltb 0x1F300 c); lia.
Qed.

Lemma display_width_cons east_asian_width c s :
  display_width east_asian_width (c :: s)
  = (char_width_spec east_asian_width c + display_width east_asian_width s)%Z.
Proof. rewrite !display_width_sum. reflexivity. Qed.

Lemma display_width_printable east_asian_width s :
  ascii_narrow east_asian_width -> printable s ->
  display_width east_asian_width s = Z.of_nat (length s).
Proof.
  intros Hn Hs. induction Hs as [|c s Hc Hs IH]; [reflexivity|].
  rewrite display_width_cons, IH, (narrow_char_width _ c Hn Hc).
  cbn [length]. lia.
Qed.

Lemma printable_u_space k : printable (repeat SPACE k).
Proof.
  induction k; simpl; constructor; [unfold SPACE; lia | assumption].
Qed.

Lemma printable_firstn n s : printable s -> printable (firstn n s).
Proof.
  intros Hs. revert n. induction Hs as [|c s Hc Hs IH]; intros [|n]; simpl;
    try constructor; [exact Hc | apply IH].
Qed.

Lemma ljust_length w s : length (ljust w s) = Nat.max w (length s).
Proof. unfold ljust. rewrite length_app, repeat_length. lia. Qed.

Lemma rjust_length w s : length (rjust w s) = Nat.max w (length s).
Proof. unfold rjust. rewrite length_app, repeat_length. lia. Qed.

Lemma pad_line_width east_asian_width content target :
  ascii_narrow east_asian_width ->
  display_width east_asian_width (pad_line east_asian_width content target)
  = Z.max target (display_width east_asian_width content).
Proof.
  intros Hn. unfold pad_line.
  rewrite display_width_app, (display_width_spaces _ _ Hn). lia.
Qed.

(** X1.  The width of a concatenation is the sum of the widths. *)
Theorem display_width_concat :
  forall east_asian_width s t,
    display_width east_asian_width (s ++ t)
    = (display_width east_asian_width s + display_width east_asian_width t)%Z.
Proof. intros. apply display_width_app. Qed.

(** X2.  A string measures at least 0 and at most twice its length. *)
Theorem display_width_bounds :
  forall east_asian_width s,
    (0 <= display_width east_asian_width s <= 2 * Z.of_nat (length s))%Z.
Proof.
  intros eaw s. induction s as [|c s IH]; [rewrite display_width_sum; simpl; lia|].
  rewrite display_width_cons. pose proof (char_width_range eaw c).
  cbn [length]. lia.
Qed.

(** X3.  Deleting the variation selectors and the zero-width joiners of a
    string leaves its width unchanged. *)
Theorem display_width_ignores_zero_width :
  forall east_asian_width s,
    display_width east_asian_width (filter (fun c => negb (zero_width c)) s)
    = display_width east_asian_width s.
Proof.
  intros eaw s. induction s as [|c s IH]; [reflexivity|].
  cbn [filter]. unfold zero_width at 1.
  destruct (is_variation_selector c) eqn:Hv; cbn [orb negb].
  - rewrite IH, display_width_cons. unfold char_width_spec. rewrite Hv. lia.
  - destruct (is_zwj c) eqn:Hz; cbn [negb].
    + rewrite IH, display_width_cons. unfold char_width_spec. rewrite Hv, Hz. lia.
    + rewrite !display_width_cons, IH. reflexivity.
Qed.

(** X4.  Padding a padded line again to the same width changes nothing. *)
Theorem pad_line_idempotent :
  forall east_asian_width content target,
    ascii_narrow east_asian_width ->
    pad_line east_asian_width (pad_line east_asian_width content target) target
    = pad_line east_asian_width content target.
Proof.
  intros eaw content target Hn.
  unfold pad_line at 1. rewrite (pad_line_width _ _ _ Hn). unfold spaces.
  replace (Z.to_nat (target - Z.max target (display_width eaw content)))
    with 0 by lia.
  apply app_nil_r.
Qed.

Lemma pad_line_idempotent_witness :
  pad_line sample_table (pad_line sample_table [0x4E2D; 65]%N 6) 6
  = pad_line sample_table [0x4E2D; 65]%N 6.
Proof.
  apply (pad_line_idempotent sample_table [0x4E2D; 65]%N 6 sample_table_narrow).
Defined.

Lemma boxed_width east_asian_width line w :
  ascii_narrow east_asian_width ->
  display_width east_asian_width (boxed east_asian_width line w)
  = (Z.max w (display_width east_asian_width line) + 2)%Z.
Proof.
  intros Hn. unfold boxed.
  rewrite !display_width_app, (pad_line_width _ _ _ Hn).
  assert (Hbar : display_width east_asian_width (u "|") = 1%Z).
  { apply (display_width_printable east_asian_width (u "|") Hn).
    repeat constructor; simpl; lia. }
  rewrite Hbar. lia.
Qed.

(** X5.  A boxed row measures the panel width plus the two borders whenever its
    line fits the panel, and more than that when the line is wider. *)
Theorem boxed_row_width :
  forall east_asian_width line w,
    ascii_narrow east_asian_width ->
    display_width east_asian_width (boxed east_asian_width line w)
    = (Z.max w (display_width east_asian_width line) + 2)%Z.
Proof.
  intros eaw line w Hn. unfold boxed.
  rewrite !display_width_app, (pad_line_width _ _ _ Hn).
  rewrite (display_width_printable eaw (u "|") Hn);
    [simpl length; lia | repeat constructor; simpl; lia].
Qed.

Lemma boxed_row_width_witness :
  display_width sample_table (boxed sample_table (u "  Total: 3 repositories") 70)
  = 72%Z.
Proof.
  rewrite (boxed_row_width sample_table (u "  Total: 3 repositories") 70
             sample_table_narrow).
  reflexivity.
Defined.

(** X6.  With a name and a timestamp of printable ASCII, a row of the recency
    panel measures exactly 72 columns: the borders line up. *)
Theorem recency_row_aligned :
  forall east_asian_width r,
    ascii_narrow east_asian_width ->
    printable (name r) ->
    printable (or_empty (updated_at r)) ->
    display_width east_asian_width (boxed east_asian_width (recency_line r) 70)
    = 72%Z.
Proof.
  intros eaw r Hn Hname Hupd.
  rewrite (boxed_width _ _ _ Hn).
  assert (Hline : printable (recency_line r)).
  { unfold recency_line, ljust, recency_name, printable.
    rewrite !Forall_app. repeat split.
    - repeat constructor; simpl; lia.
    - now apply printable_firstn.
    - apply printable_u_space.
    - repeat constructor; simpl; lia.
    - now apply printable_firstn. }
  rewrite (display_width_printable _ _ Hn Hline).
  unfold recency_line. rewrite !length_app, ljust_length.
  unfold recency_name. rewrite !length_firstn. simpl length. lia.
Qed.

Lemma recency_row_aligned_witness :
  display_width sample_table (boxed sample_table (recency_line updated_2024) 70)
  = 72%Z.
Proof.
  apply (recency_row_aligned sample_table updated_2024 sample_table_narrow).
  - repeat constructor; simpl; lia.
  - repeat constructor; simpl; lia.
Defined.

Lemma uint_digits_printable d : printable (uint_digits d).
Proof.
  induction d; simpl; constructor; try assumption; lia.
Qed.

Lemma commas_rev_printable n : forall l,
  length l <= n -> printable l -> printable (commas_rev l).
Proof.
  induction n as [|n IH]; intros l Hlen Hl.
  - destruct l; [constructor | simpl in Hlen; lia].
  - destruct l as [|a [|b [|c [|d rest]]]]; try exact Hl.
    change (commas_rev (a :: b :: c :: d :: rest))
      with (a :: b :: c :: 44%N :: commas_rev (d :: rest)).
    inversion Hl as [|? ? Ha Hl1]; subst.
    inversion Hl1 as [|? ? Hb Hl2]; subst.
    inversion Hl2 as [|? ? Hc Hl3]; subst.
    repeat (constructor; [assumption || lia|]).
    apply IH; [simpl in *; lia | exact Hl3].
Qed.

Lemma fmt_comma_printable n : printable (fmt_comma n).
Proof.
  unfold fmt_comma, printable. rewrite Forall_app. split.
  - destruct (Z.ltb n 0); repeat constructor; lia.
  - apply Forall_rev. apply (commas_rev_printable _ _ (le_n _)).
    apply Forall_rev. apply uint_digits_printable.
Qed.

(** X7.  With a name of printable ASCII and a star count that formats to at
    most 10 characters, a row of the popularity panel measures exactly 72
    columns, whether the table counts the star symbol as wide or not. *)
Theorem popularity_row_aligned :
  forall east_asian_width r,
    ascii_narrow east_asian_width ->
    printable (name r) ->
    length (fmt_comma (stars r)) <= 10 ->
    display_width east_asian_width (boxed east_asian_width (popularity_line r) 70)
    = 72%Z.
Proof.
  intros eaw r Hn Hname Hstars.
  rewrite (boxed_width _ _ _ Hn).
  unfold popularity_line. rewrite !display_width_app.
  assert (Hsp2 : display_width eaw (u "  ") = 2%Z).
  { apply (display_width_printable eaw (u "  ") Hn).
    repeat constructor; simpl; lia. }
  assert (Hsp1 : display_width eaw (u " ") = 1%Z).
  { apply (display_width_printable eaw (u " ") Hn).
    repeat constructor; simpl; lia. }
  assert (Hnm : display_width eaw (ljust 45 (popularity_name r)) = 45%Z).
  { rewrite (display_width_printable eaw _ Hn).
    - rewrite ljust_length. unfold popularity_name.
      rewrite length_firstn. lia.
    - unfold ljust, popularity_name, printable. rewrite Forall_app.
      split; [now apply printable_firstn | apply printable_u_space]. }
  assert (Hst : display_width eaw (rjust 10 (fmt_comma (stars r))) = 10%Z).
  { rewrite (display_width_printable eaw _ Hn).
    - rewrite rjust_length. lia.
    - unfold rjust, printable. rewrite Forall_app.
      split; [apply printable_u_space | apply fmt_comma_printable]. }
  assert (Hstar : (0 <= display_width eaw [STAR] <= 2)%Z).
  { rewrite display_width_cons.
    pose proof (char_width_range eaw STAR).
    change (display_width eaw []) with 0%Z. lia. }
  rewrite Hsp2, Hsp1, Hnm, Hst. lia.
Qed.

Lemma popularity_row_aligned_witness :
  display_width sample_table (boxed sample_table (popularity_line updated_2024) 70)
  = 72%Z.
Proof.
  apply (popularity_row_aligned sample_table updated_2024 sample_table_narrow).
  - repeat constructor; simpl; lia.
  - vm_compute. lia.
Defined.

End WidthMore.

(** ** [export_to_json]: entries that cannot be normalized, order and count *)

Module ExportMore.

Import Normalizer Exporter NormalizerSpec NormalizerFacts Pipeline.
Local Open Scope py_scope.

Lemma mapM_ok {A B} (f : A -> result B) l : forall ys,
  mapM f l = Ok ys <-> Forall2 (fun x y => f x = Ok y) l ys.
Proof.
  induction l as [|x l IH]; intros ys; simpl.
  - split; [intros [= <-]; constructor | intros H; inversion H; reflexivity].
  - destruct (f x) as [y|e] eqn:Hx; simpl.
    + destruct (mapM f l) as [ys'|e] eqn:Hl; simpl.
      * split.
        -- intros [= <-]. constructor; [exact Hx | now apply IH].
        -- intros H. inversion H as [|? y0 ? ys0 Hy Hrest]; subst.
           apply IH in Hrest. congruence.
      * split; [discriminate|].
        intros H. inversion H as [|? y0 ? ys0 Hy Hrest]; subst.
        apply IH in Hrest. discriminate.
    + split; [discriminate|].
      intros H. inversion H; subst. congruence.
Qed.

Lemma mapM_first_failure {A B} (f : A -> result B) pre bad post e :
  Forall (fun x => exists y, f x = Ok y) pre ->
  f bad = Raise e ->
  mapM f (pre ++ bad :: post) = Raise e.
Proof.
  intros Hpre Hbad. induction Hpre as [|x pre [y Hy] _ IH]; simpl.
  - rewrite Hbad. reflexivity.
  - rewrite Hy, IH. reflexivity.
Qed.

(** X8.  An entry that is not an object, or whose wrapper holds something other
    than an object, raises [TypeError]. *)
Theorem non_object_entry_raises :
  forall item, repo_source item = None -> normalize item = Raise TypeError.
Proof.
  intros item Hs. unfold normalize, split_item.
  destruct item as [| b | n | s | l | di]; try reflexivity.
  - simpl. destruct (str_contains (u "repo") s); reflexivity.
  - simpl.
    destruct (existsb _ l); reflexivity.
  - unfold repo_source in Hs. unfold contains, getitem.
    destruct (dict_lookup (u "repo") di) as [v|] eqn:Hv; [|discriminate].
    rewrite get_obj. cbn [bind fst snd].
    destruct v; try reflexivity. discriminate.
Qed.

Lemma non_object_entry_raises_witness :
  normalize (JStr (u "repo")) = Raise TypeError /\
  normalize (JObj [(u "repo", JNull)]) = Raise TypeError.
Proof.
  split.
  - apply (non_object_entry_raises (JStr (u "repo"))). reflexivity.
  - apply (non_object_entry_raises (JObj [(u "repo", JNull)])). reflexivity.
Defined.

(** X9.  A repository object without [full_name], or without [html_url], raises
    [KeyError]: the two required fields have no default. *)
Theorem missing_required_field_raises :
  forall item d,
    repo_source item = Some d ->
    dict_lookup (u "full_name") d = None \/ dict_lookup (u "html_url") d = None ->
    normalize item = Raise KeyError.
Proof.
  intros item d Hs Hmiss. rewrite (normalize_source _ _ Hs).
  unfold build_repo_data, getitem.
  destruct (dict_lookup (u "full_name") d) as [v|] eqn:Hn; [|reflexivity].
  destruct Hmiss as [Hmiss|Hmiss]; [discriminate|].
  cbn [bind]. rewrite get_obj. cbn [bind]. rewrite Hmiss. reflexivity.
Qed.

Lemma missing_required_field_raises_witness :
  normalize (JObj [(u "html_url", JStr (u "https://x"))]) = Raise KeyError.
Proof.
  apply (missing_required_field_raises _ [(u "html_url", JStr (u "https://x"))]).
  - reflexivity.
  - left. reflexivity.
Defined.

(** X10.  The document built from a list of raw entries has one record per
    entry, in the order of the entries, each the normalization of its
    entry; [total_count] is the number of records and [exported_at] the
    time given.  Conversely, entries that all normalize give a document. *)
Theorem export_keeps_order_and_count :
  forall now repos,
    (forall data,
       build_export now repos = Ok data ->
       exported_at data = now /\
       total_count data = Z.of_nat (length (repositories data)) /\
       Forall2 (fun item r => normalize item = Ok r) repos (repositories data)) /\
    (forall rs,
       Forall2 (fun item r => normalize item = Ok r) repos rs ->
       build_export now repos
       = Ok {| exported_at := now;
               total_count := Z.of_nat (length rs);
               repositories := rs |}).
Proof.
  intros now repos. unfold build_export. split.
  - intros data H.
    destruct (mapM normalize repos) as [rs|e] eqn:Hm; [|discriminate].
    injection H as <-. apply mapM_ok in Hm. cbn.
    repeat split; [|exact Hm]. now rewrite (Forall2_length Hm).
  - intros rs H. pose proof (Forall2_length H) as Hlen.
    apply mapM_ok in H. rewrite H. cbn [bind]. now rewrite Hlen.
Qed.

Lemma export_keeps_order_and_count_witness :
  exists data,
    build_export (u "2024-06-01T12:00:00") [wrapper_entry; bare_entry] = Ok data /\
    total_count data = 2%Z /\
    map name (repositories data) = [JStr (u "a/b"); JStr (u "c/d")].
Proof.
  destruct (export_keeps_order_and_count (u "2024-06-01T12:00:00")
              [wrapper_entry; bare_entry]) as (Hto & _).
  eexists. split; [reflexivity|].
  destruct (Hto _ eq_refl) as (_ & Hcount & _).
  split; [exact Hcount | reflexivity].
Defined.

(** X11.  When an entry cannot be normalized, the export raises the exception of
    the first such entry and the destination is not opened: the trace is
    left as it was. *)
Theorem export_fails_before_writing :
  forall e pre bad post x filename tr,
    Forall (fun item => exists r, normalize item = Ok r) pre ->
    normalize bad = Raise x ->
    export_to_json e (pre ++ bad :: post) filename tr = (tr, Some (Raise x)).
Proof.
  intros e pre bad post x filename tr Hpre Hbad.
  unfold export_to_json, build_export.
  rewrite (mapM_first_failure normalize pre bad post x Hpre Hbad). reflexivity.
Qed.

Lemma export_fails_before_writing_witness :
  export_to_json (PipelineSpec.sample_env PipelineSpec.one_page_server)
    ([bare_entry] ++ null_owner_entry :: [wrapper_entry]) OUTPUT_JSON []
  = ([], Some (Raise AttributeError)).
Proof.
  apply (export_fails_before_writing _ [bare_entry] null_owner_entry
           [wrapper_entry] AttributeError OUTPUT_JSON []).
  - constructor; [eexists; reflexivity | constructor].
  - reflexivity.
Defined.

End ExportMore.

(** ** [get_starred_repos] and [main]: the pages of a run *)

Module PipelineMore.

Import Normalizer Exporter Pipeline PipelineSpec PipelineFacts MoreSpec.

Lemma flat_map_shift {A} (f : nat -> list A) n :
  flat_map f (seq 1 n) = flat_map (fun i => f (S i)) (seq 0 n).
Proof.
  rewrite <- seq_shift. induction (seq 0 n) as [|i l IH]; simpl; [reflexivity|].
  now rewrite IH.
Qed.

Lemma entries_from_S srv page n :
  entries_from srv page (S n)
  = page_entries (srv page) ++ entries_from srv (page + 1)%Z n.
Proof.
  unfold entries_from. change (seq 0 (S n)) with (0 :: seq 1 n).
  cbn [flat_map]. rewrite Z.add_0_r. f_equal.
  rewrite flat_map_shift. apply flat_map_ext. intros i.
  f_equal. f_equal. lia.
Qed.

Lemma pages_S page n : pages page (S n) = page :: pages (page + 1)%Z n.
Proof. unfold pages. now rewrite <- pages_from. Qed.

Lemma pages_snoc page n :
  pages page (S n) = pages page n ++ [(page + Z.of_nat n)%Z].
Proof.
  unfold pages. rewrite seq_S, map_app. reflexivity.
Qed.

(** [n] full pages take [n] passes through the loop and leave it at the
    next page with their entries appended. *)
Lemma fetch_loop_full_pages srv n : forall fuel page repos tr,
  (forall i, i < n -> full_page (srv (page + Z.of_nat i)%Z)) ->
  exists evs,
    fetch_loop (n + fuel) srv page repos tr
    = fetch_loop fuel srv (page + Z.of_nat n)%Z
        (repos ++ entries_from srv page n) (tr ++ evs) /\
    requested evs = pages page n /\
    existsb is_write evs = false.
Proof.
  induction n as [|n IH]; intros fuel page repos tr Hfull.
  - exists []. rewrite Z.add_0_r, !app_nil_r. repeat split.
  - destruct (Hfull 0) as (Hok & x & l & Hbody); [lia|].
    rewrite Z.add_0_r in Hok, Hbody.
    destruct (IH fuel (page + 1)%Z (repos ++ x :: l)
                ((tr ++ [Request page])
                   ++ [Progress page (length (repos ++ x :: l))]))
      as (evs & Hrun & Hreq & Hw).
    { intros i Hi. replace (page + 1 + Z.of_nat i)%Z
        with (page + Z.of_nat (S i))%Z by lia. apply Hfull. lia. }
    exists ([Request page; Progress page (length (repos ++ x :: l))] ++ evs).
    split; [|split].
    + cbn [Nat.add fetch_loop]. rewrite Hok, Hbody. cbn [truthy negb extend].
      rewrite Hrun, entries_from_S. unfold page_entries. rewrite Hbody.
      replace (page + 1 + Z.of_nat n)%Z with (page + Z.of_nat (S n))%Z by lia.
      now rewrite <- !app_assoc.
    + rewrite requested_app, Hreq, pages_S. reflexivity.
    + rewrite existsb_app, Hw. reflexivity.
Qed.

Lemma fetch_complete srv n fuel :
  (forall i, i < n -> full_page (srv (1 + Z.of_nat i)%Z)) ->
  last_page (srv (1 + Z.of_nat n)%Z) ->
  n < fuel ->
  exists tr,
    get_starred_repos fuel srv = (tr, Some (Ok (entries_from srv 1 n))) /\
    requested tr = pages 1 (S n) /\
    existsb is_write tr = false.
Proof.
  intros Hfull (Hok & data & Hbody & Hfalse) Hfuel.
  destruct (fetch_loop_full_pages srv n (fuel - n) 1%Z [] [] Hfull)
    as (evs & Hrun & Hreq & Hw).
  exists (evs ++ [Request (1 + Z.of_nat n)%Z]).
  unfold get_starred_repos. replace fuel with (n + (fuel - n)) at 1 by lia.
  rewrite Hrun. destruct (fuel - n) as [|f] eqn:Hf; [lia|].
  cbn [fetch_loop app]. rewrite Hok, Hbody, Hfalse. cbn [negb].
  repeat split.
  - rewrite requested_app, Hreq, pages_snoc. reflexivity.
  - rewrite existsb_app, Hw. reflexivity.
Qed.

Lemma fetch_loop_requests srv fuel : forall page repos tr,
  exists m,
    m <= fuel /\
    requested (fst (fetch_loop fuel srv page repos tr))
    = requested tr ++ pages page m.
Proof.
  induction fuel as [|fuel IH]; intros page repos tr.
  - exists 0. split; [lia|]. simpl. now rewrite app_nil_r.
  - assert (Hone : exists m, m <= S fuel /\
      requested (tr ++ [Request page]) = requested tr ++ pages page m).
    { exists 1. split; [lia|]. rewrite requested_app. unfold pages. simpl.
      now rewrite Z.add_0_r. }
    cbn [fetch_loop].
    destruct (is_error_status (srv page)); [exact Hone|].
    destruct (body (srv page)) as [data|]; [|exact Hone].
    destruct (negb (truthy data)); [exact Hone|].
    destruct (extend repos data) as [repos'|x]; [|exact Hone].
    destruct (IH (page + 1)%Z repos'
                ((tr ++ [Request page]) ++ [Progress page (length repos')]))
      as (m & Hm & Hreq).
    exists (S m). split; [lia|].
    rewrite Hreq, !requested_app, pages_S. simpl. now rewrite <- !app_assoc.
Qed.

(** X12.  Whatever the endpoint answers, a run asks for pages 1, 2, 3, ... in
    that order, each once and none skipped, one page per pass of the
    loop at most. *)
Theorem fetch_asks_pages_in_order :
  forall fuel srv,
    exists m,
      m <= fuel /\
      requested (fst (get_starred_repos fuel srv)) = pages 1 m.
Proof.
  intros fuel srv. unfold get_starred_repos.
  destruct (fetch_loop_requests srv fuel 1%Z [] []) as (m & Hm & Hreq).
  exists m. split; [exact Hm | exact Hreq].
Qed.

(** X13.  When the endpoint serves [n] full pages and then a page that is false,
    the fetch returns the entries of the [n] pages in page order, having
    asked for pages 1 to [n + 1]. *)
Theorem fetch_returns_all_pages :
  forall srv n fuel,
    (forall i, i < n -> full_page (srv (1 + Z.of_nat i)%Z)) ->
    last_page (srv (1 + Z.of_nat n)%Z) ->
    n < fuel ->
    exists tr,
      get_starred_repos fuel srv = (tr, Some (Ok (entries_from srv 1 n))) /\
      requested tr = pages 1 (S n).
Proof.
  intros srv n fuel Hfull Hlast Hfuel.
  destruct (fetch_complete srv n fuel Hfull Hlast Hfuel) as (tr & Hrun & Hreq & _).
  exists tr. split; assumption.
Qed.

Lemma fetch_returns_all_pages_witness :
  exists tr,
    get_starred_repos 3 one_page_server
    = (tr, Some (Ok [NormalizerSpec.bare_entry])) /\
    requested tr = [1; 2]%Z.
Proof.
  apply (fetch_returns_all_pages one_page_server 1 3).
  - intros i Hi. assert (i = 0) as -> by lia.
    split; [reflexivity|]. eexists _, _. reflexivity.
  - split; [reflexivity|]. eexists. split; reflexivity.
  - lia.
Defined.

(** X14.  The loop has no bound of its own: against an endpoint whose every page
    is full it is still running after any number of passes, one page asked
    for in each. *)
Theorem fetch_never_stops_on_full_pages :
  forall srv,
    (forall i, full_page (srv (1 + Z.of_nat i)%Z)) ->
    forall fuel,
      exists tr,
        get_starred_repos fuel srv = (tr, None) /\
        requested tr = pages 1 fuel.
Proof.
  intros srv Hfull fuel.
  destruct (fetch_loop_full_pages srv fuel 0 1%Z [] [] (fun i _ => Hfull i))
    as (evs & Hrun & Hreq & _).
  exists evs. unfold get_starred_repos. rewrite Nat.add_0_r in Hrun.
  rewrite Hrun. split; [reflexivity | exact Hreq].
Qed.

Lemma fetch_never_stops_on_full_pages_witness :
  exists tr,
    get_starred_repos 4 endless_server = (tr, None) /\
    requested tr = [1; 2; 3; 4]%Z.
Proof.
  apply (fetch_never_stops_on_full_pages endless_server).
  intros i. split; [reflexivity|]. eexists _, _. reflexivity.
Defined.



(** X16.  A run whose fetch completes but one of whose entries cannot be
    normalized ends with the exception of the first such entry and writes
    nothing, every page having been fetched. *)
Theorem main_bad_entry_writes_nothing :
  forall recap e n fuel pre bad post x,
    (forall i, i < n -> full_page (server e (1 + Z.of_nat i)%Z)) ->
    last_page (server e (1 + Z.of_nat n)%Z) ->
    n < fuel ->
    entries_from (server e) 1 n = pre ++ bad :: post ->
    Forall (fun item => exists r, normalize item = Ok r) pre ->
    normalize bad = Raise x ->
    exists tr,
      main recap fuel e = (tr, Some (Raise x)) /\
      existsb is_write tr = false /\
      requested tr = pages 1 (S n).
Proof.
  intros recap e n fuel pre bad post x Hfull Hlast Hfuel Hent Hpre Hbad.
  destruct (fetch_complete (server e) n fuel Hfull Hlast Hfuel)
    as (tr & Hrun & Hreq & Hnow).
  exists tr. unfold main. rewrite Hrun, Hent.
  unfold export_to_json, build_export.
  rewrite (ExportMore.mapM_first_failure normalize pre bad post x Hpre Hbad).
  repeat split; assumption.
Qed.

Lemma main_bad_entry_writes_nothing_witness :
  exists tr,
    main quiet_recap 3 (sample_env nameless_server) = (tr, Some (Raise KeyError)) /\
    existsb is_write tr = false /\
    requested tr = [1; 2]%Z.
Proof.
  apply (main_bad_entry_writes_nothing quiet_recap (sample_env nameless_server) 1 3
           [] (JObj [(u "html_url", JStr (u "https://x"))]) [] KeyError).
  - intros i Hi. assert (i = 0) as -> by lia.
    split; [reflexivity|]. eexists _, _. reflexivity.
  - split; [reflexivity|]. eexists. split; reflexivity.
  - lia.
  - reflexivity.
  - constructor.
  - reflexivity.
Defined.

End PipelineMore.

(** ** [print_recap]: rankings, counters and the listing *)

Module RecapMore.

Import Recap Stats Render RecapSpec RecapFacts.

Lemma strongly_sorted_weaken {A} (R R' : A -> A -> Prop) l :
  (forall a b, R a b -> R' a b) -> StronglySorted R l -> StronglySorted R' l.
Proof.
  intros Himp Hs. induction Hs as [|a l Hs IH Ha]; constructor;
    [exact IH | exact (Forall_impl _ (Himp a) Ha)].
Qed.

Lemma strongly_sorted_split {A} (R : A -> A -> Prop) l1 : forall l2,
  StronglySorted R (l1 ++ l2) ->
  StronglySorted R l1 /\ forall a b, In a l1 -> In b l2 -> R a b.
Proof.
  induction l1 as [|x l1 IH]; intros l2 Hs; simpl in *.
  - split; [constructor | intros a b []].
  - inversion Hs as [|? ? Hrest Hx]; subst.
    destruct (IH l2 Hrest) as (Hs1 & Hcross).
    rewrite Forall_app in Hx. destruct Hx as (Hx1 & Hx2). split.
    + constructor; assumption.
    + intros a b [<-|Ha] Hb; [|now apply Hcross].
      rewrite Forall_forall in Hx2. now apply Hx2.
Qed.

Lemma filter_firstn_prefix {A} (p : A -> bool) n l :
  exists tail, filter p l = filter p (firstn n l) ++ tail.
Proof.
  exists (filter p (skipn n l)).
  rewrite <- filter_app, firstn_skipn. reflexivity.
Qed.

Section StableSort.

Context {A K : Type} (ltb eqb : K -> K -> bool) (key : A -> K).
Hypothesis ltb_asym : forall a b, ltb a b = true -> ltb b a = false.
Hypothesis ltb_negtrans :
  forall a b c, ltb a b = false -> ltb b c = false -> ltb a c = false.
Hypothesis eqb_eq : forall a b, eqb a b = true <-> a = b.

Lemma ltb_irrefl a : ltb a a = false.
Proof.
  destruct (ltb a a) eqn:H; [|reflexivity].
  pose proof (ltb_asym _ _ H). congruence.
Qed.

Lemma insert_desc_stable k x l :
  filter (fun y => eqb (key y) k) (insert_desc ltb key x l)
  = filter (fun y => eqb (key y) k) (x :: l).
Proof.
  induction l as [|y l IH]; [reflexivity|].
  cbn [insert_desc]. destruct (ltb (key x) (key y)) eqn:Hxy; [|reflexivity].
  cbn [filter] in *. rewrite IH.
  destruct (eqb (key x) k) eqn:Hx, (eqb (key y) k) eqn:Hy; try reflexivity.
  apply eqb_eq in Hx, Hy. rewrite Hx, Hy, ltb_irrefl in Hxy. discriminate.
Qed.

(** Records with one and the same key come out in the order they went
    in. *)
Lemma sorted_desc_stable k l :
  filter (fun y => eqb (key y) k) (sorted_desc ltb key l)
  = filter (fun y => eqb (key y) k) l.
Proof.
  induction l as [|x l IH]; [reflexivity|].
  cbn [sorted_desc fold_right]. rewrite insert_desc_stable.
  cbn [filter]. fold (sorted_desc ltb key l). now rewrite IH.
Qed.

(** The first [n] of a descending sort. *)
Lemma top_of_sorted n l :
  let top := firstn n (sorted_desc ltb key l) in
  length top = Nat.min n (length l) /\
  StronglySorted (fun a b => ltb (key a) (key b) = false) top /\
  (exists rest,
     Permutation (top ++ rest) l /\
     forall a b, In a top -> In b rest -> ltb (key a) (key b) = false) /\
  forall k, exists tail,
    filter (fun y => eqb (key y) k) l
    = filter (fun y => eqb (key y) k) top ++ tail.
Proof.
  intros top. subst top.
  pose proof (sorted_desc_sorted ltb key ltb_asym ltb_negtrans l) as Hs.
  pose proof (sorted_desc_perm ltb key l) as Hp.
  rewrite <- (firstn_skipn n (sorted_desc ltb key l)) in Hs.
  apply strongly_sorted_split in Hs as (Hs1 & Hcross).
  split; [|split; [exact Hs1|split]].
  - rewrite length_firstn, (Permutation_length Hp). reflexivity.
  - exists (skipn n (sorted_desc ltb key l)). split; [|exact Hcross].
    now rewrite firstn_skipn.
  - intros k. rewrite <- (sorted_desc_stable k l). apply filter_firstn_prefix.
Qed.

End StableSort.

Lemma z_ltb_asym a b : Z.ltb a b = true -> Z.ltb b a = false.
Proof. intros H. apply Z.ltb_lt in H. apply Z.ltb_ge. lia. Qed.

Lemma z_ltb_negtrans a b c :
  Z.ltb a b = false -> Z.ltb b c = false -> Z.ltb a c = false.
Proof. rewrite !Z.ltb_ge. lia. Qed.

Lemma nat_ltb_asym a b : Nat.ltb a b = true -> Nat.ltb b a = false.
Proof. intros H. apply Nat.ltb_lt in H. apply Nat.ltb_ge. lia. Qed.

Lemma nat_ltb_negtrans a b c :
  Nat.ltb a b = false -> Nat.ltb b c = false -> Nat.ltb a c = false.
Proof. rewrite !Nat.ltb_ge. lia. Qed.

(** X17.  The popularity ranking holds the 10 records with the most stars (all
    of them when there are fewer), most stars first; no record left out
    has more stars than one shown; records with equal stars keep their
    fetch order, and among them the earlier ones are the ones shown. *)
Theorem popularity_ranking_top_and_stable :
  forall repos,
    length (by_stars repos) = Nat.min 10 (length repos) /\
    StronglySorted (fun a b => (stars b <= stars a)%Z) (by_stars repos) /\
    (exists rest,
       Permutation (by_stars repos ++ rest) repos /\
       forall a b, In a (by_stars repos) -> In b rest -> (stars b <= stars a)%Z) /\
    forall n, exists tail,
      filter (fun r => Z.eqb (stars r) n) repos
      = filter (fun r => Z.eqb (stars r) n) (by_stars repos) ++ tail.
Proof.
  intros repos.
  destruct (top_of_sorted Z.ltb Z.eqb stars z_ltb_asym z_ltb_negtrans Z.eqb_eq
              10 repos) as (Hlen & Hs & (rest & Hp & Hcross) & Hstable).
  split; [exact Hlen|]. split; [|split].
  - apply (strongly_sorted_weaken _ _ _ (fun a b H => proj1 (Z.ltb_ge _ _) H) Hs).
  - exists rest. split; [exact Hp|].
    intros a b Ha Hb. apply Z.ltb_ge. now apply Hcross.
  - exact Hstable.
Qed.

(** X18.  [most_common(n)] gives the [n] entries with the highest counts (all of
    them when there are fewer), highest first; no entry left out has a
    higher count than one shown; entries with equal counts keep the order
    in which their keys were first seen. *)
Theorem most_common_top_and_stable :
  forall (K : Type) n (c : list (K * nat)),
    length (most_common n c) = Nat.min n (length c) /\
    StronglySorted (fun a b => snd b <= snd a) (most_common n c) /\
    (exists rest,
       Permutation (most_common n c ++ rest) c /\
       forall a b, In a (most_common n c) -> In b rest -> snd b <= snd a) /\
    forall m, exists tail,
      filter (fun kn => Nat.eqb (snd kn) m) c
      = filter (fun kn => Nat.eqb (snd kn) m) (most_common n c) ++ tail.
Proof.
  intros K n c.
  destruct (top_of_sorted Nat.ltb Nat.eqb (@snd K nat) nat_ltb_asym
              nat_ltb_negtrans Nat.eqb_eq n c)
    as (Hlen & Hs & (rest & Hp & Hcross) & Hstable).
  split; [exact Hlen|]. split; [|split].
  - apply (strongly_sorted_weaken _ _ _ (fun a b H => proj1 (Nat.ltb_ge _ _) H) Hs).
  - exists rest. split; [exact Hp|].
    intros a b Ha Hb. apply Nat.ltb_ge. now apply Hcross.
  - exact Hstable.
Qed.

(** X19.  The recency ranking keeps the fetch order among records with the same
    [updated_at], the never-updated ones (null or empty) among them. *)
Theorem recency_ranking_stable :
  forall repos k,
    filter (fun r => str_eqb (updated_key r) k) (sorted_by_updated repos)
    = filter (fun r => str_eqb (updated_key r) k) repos.
Proof.
  intros repos k. unfold sorted_by_updated.
  apply (sorted_desc_stable str_ltb str_eqb updated_key str_ltb_asym str_eqb_eq).
Qed.

Section CounterKeys.

Context {K : Type} (eqb : K -> K -> bool).
Hypothesis eqb_eq : forall a b, eqb a b = true <-> a = b.

Lemma counter_add_keys k k' c :
  In k' (map fst (counter_add eqb k c)) <-> k' = k \/ In k' (map fst c).
Proof.
  induction c as [|[k1 n] c IH]; simpl.
  - intuition congruence.
  - destruct (eqb k1 k) eqn:H1; simpl.
    + apply eqb_eq in H1. subst k1. intuition congruence.
    + rewrite IH. intuition congruence.
Qed.

Lemma counter_add_nodup k c :
  NoDup (map fst c) -> NoDup (map fst (counter_add eqb k c)).
Proof.
  induction c as [|[k1 n] c IH]; simpl; intros Hnd.
  - constructor; [intros [] | constructor].
  - inversion Hnd as [|? ? Hnotin Hrest]; subst.
    destruct (eqb k1 k) eqn:H1; simpl; [constructor; assumption|].
    constructor; [|now apply IH].
    rewrite counter_add_keys. intros [->|Hin]; [|contradiction].
    rewrite (proj2 (eqb_eq k k) eq_refl) in H1. discriminate.
Qed.

Lemma counter_add_positive k c :
  Forall (fun kn => 1 <= snd kn) c ->
  Forall (fun kn => 1 <= snd kn) (counter_add eqb k c).
Proof.
  induction c as [|[k1 n] c IH]; simpl; intros Hc.
  - repeat constructor.
  - inversion Hc as [|? ? Hn Hrest]; subst.
    destruct (eqb k1 k); constructor; simpl in *; auto; lia.
Qed.

Lemma counter_fold_invariants items : forall c,
  NoDup (map fst c) ->
  Forall (fun kn => 1 <= snd kn) c ->
  let c' := fold_left (fun c k => counter_add eqb k c) items c in
  NoDup (map fst c') /\
  Forall (fun kn => 1 <= snd kn) c' /\
  forall k, In k (map fst c') <-> In k items \/ In k (map fst c).
Proof.
  induction items as [|x items IH]; intros c Hnd Hpos; simpl.
  - repeat split; try assumption; intuition.
  - destruct (IH (counter_add eqb x c) (counter_add_nodup x c Hnd)
                (counter_add_positive x c Hpos)) as (Hnd' & Hpos' & Hkeys).
    repeat split; try assumption.
    + intros Hin. apply Hkeys in Hin as [Hin|Hin]; [tauto|].
      apply counter_add_keys in Hin as [->|Hin]; tauto.
    + intros [[<-|Hin]|Hin]; apply Hkeys.
      * right. apply counter_add_keys. now left.
      * now left.
      * right. apply counter_add_keys. now right.
Qed.

End CounterKeys.

(** X20.  The topic counter has each topic that some record carries exactly once
    as a key, with the number of times it occurs over all records, never
    zero; its counts add up to the number of topic entries; the panel is
    left out exactly when no record has a topic. *)
Theorem topic_counter_invariants :
  forall repos,
    NoDup (map fst (topic_counts repos)) /\
    (forall t,
       In t (map fst (topic_counts repos))
       <-> exists r, In r repos /\ In t (topics r)) /\
    (forall t,
       counter_get str_eqb t (topic_counts repos)
       = length (filter (fun t' => str_eqb t' t) (all_topics repos))) /\
    Forall (fun kn => 1 <= snd kn) (topic_counts repos) /\
    counter_total (topic_counts repos) = length (all_topics repos) /\
    (topics_panel_shown repos = false <-> forall r, In r repos -> topics r = []).
Proof.
  intros repos. unfold topic_counts, Counter.
  destruct (counter_fold_invariants str_eqb str_eqb_eq (all_topics repos) []
              (NoDup_nil _) (Forall_nil _)) as (Hnd & Hpos & Hkeys).
  assert (Htotal : counter_total
            (fold_left (fun c k => counter_add str_eqb k c) (all_topics repos) [])
          = length (all_topics repos)).
  { rewrite counter_total_fold. simpl. lia. }
  split; [exact Hnd|]. split; [|split; [|split; [exact Hpos|split; [exact Htotal|]]]].
  - intros t. rewrite Hkeys. unfold all_topics. rewrite in_flat_map.
    simpl. tauto.
  - intros t. rewrite (counter_get_fold _ str_eqb_eq). simpl. lia.
  - unfold topics_panel_shown, topic_counts, Counter.
    destruct (fold_left _ (all_topics repos) []) as [|kn c] eqn:Hc.
    + split; [intros _|reflexivity]. simpl in Htotal.
      intros r Hr. destruct (topics r) as [|t ts] eqn:Ht; [reflexivity|].
      assert (Hin : In t (all_topics repos)).
      { unfold all_topics. apply in_flat_map. exists r.
        split; [exact Hr | rewrite Ht; now left]. }
      destruct (all_topics repos); [destruct Hin | discriminate].
    + split; [discriminate|]. intros Hall.
      assert (Hnil : all_topics repos = []).
      { unfold all_topics. clear -Hall.
        induction repos as [|r repos IH]; [reflexivity|]. simpl.
        rewrite (Hall r (or_introl eq_refl)). apply IH.
        intros r' Hr'. apply Hall. now right. }
      rewrite Hnil in Htotal. simpl in Htotal.
      inversion Hpos as [|? ? Hk _]; subst. lia.
Qed.

(** X22.  The quick stats: an owner is an organization exactly when its type is
    the string "Organization"; every other record, one with a null type
    included, counts as a user, so that the two counts add up to the
    number of records and neither is negative. *)
Theorem quick_stats_partition :
  forall repos,
    (forall r, is_organization r = true <-> owner_type r = Some ORGANIZATION) /\
    users repos
    = Z.of_nat (length (filter (fun r => negb (is_organization r)) repos)) /\
    (Z.of_nat (orgs repos) + users repos = Z.of_nat (length repos))%Z /\
    (0 <= users repos)%Z /\
    archived_count repos <= length repos.
Proof.
  intros repos.
  assert (Hsplit : forall p : CanonicalRecord -> bool,
    length (filter p repos) + length (filter (fun r => negb (p r)) repos)
    = length repos).
  { intros p. induction repos as [|r repos IH]; [reflexivity|]. simpl.
    destruct (p r); simpl; lia. }
  pose proof (Hsplit is_organization) as Horg.
  pose proof (Hsplit archived) as Harch.
  unfold users, orgs, archived_count.
  split; [intros r; apply opt_str_eqb_eq|]. repeat split; lia.
Qed.

Lemma insert_asc_perm {A K} (ltb : K -> K -> bool) (key : A -> K) x l :
  Permutation (insert_asc ltb key x l) (x :: l).
Proof.
  induction l as [|y l IH]; simpl; [reflexivity|].
  destruct (ltb (key y) (key x)); [|reflexivity].
  rewrite IH. apply perm_swap.
Qed.

Lemma sorted_asc_perm {A K} (ltb : K -> K -> bool) (key : A -> K) l :
  Permutation (sorted_asc ltb key l) l.
Proof.
  induction l as [|x l IH]; simpl; [reflexivity|].
  rewrite insert_asc_perm. now constructor.
Qed.

Lemma listing_entry_length r :
  length (listing_entry r) = 4 + (if truthy_str (description r) then 1 else 0).
Proof.
  unfold listing_entry, listing_description.
  destruct (description r) as [[|c d]|]; reflexivity.
Qed.

Section AscendingSort.

Context {A K : Type} (ltb : K -> K -> bool) (key : A -> K).
Hypothesis ltb_asym : forall a b, ltb a b = true -> ltb b a = false.
Hypothesis ltb_negtrans :
  forall a b c, ltb a b = false -> ltb b c = false -> ltb a c = false.

Lemma insert_asc_sorted x l :
  StronglySorted (fun a b => ltb (key b) (key a) = false) l ->
  StronglySorted (fun a b => ltb (key b) (key a) = false) (insert_asc ltb key x l).
Proof.
  induction l as [|y l IH]; intros Hs; simpl.
  - repeat constructor.
  - inversion Hs as [|? ? Hl Hy]; subst.
    destruct (ltb (key y) (key x)) eqn:Hyx.
    + constructor; [now apply IH|].
      apply Forall_forall. intros z Hz.
      apply (Permutation_in _ (insert_asc_perm ltb key x l)) in Hz as [<-|Hz].
      * now apply ltb_asym.
      * rewrite Forall_forall in Hy. now apply Hy.
    + constructor; [exact Hs|]. constructor; [exact Hyx|].
      apply Forall_forall. intros z Hz. rewrite Forall_forall in Hy.
      exact (ltb_negtrans _ _ _ (Hy z Hz) Hyx).
Qed.

Lemma sorted_asc_sorted l :
  StronglySorted (fun a b => ltb (key b) (key a) = false) (sorted_asc ltb key l).
Proof.
  induction l as [|x l IH]; simpl; [constructor|].
  now apply insert_asc_sorted.
Qed.

End AscendingSort.

(** X23.  The full listing is the entries of the records one after the
    other, every record exactly once, in non-decreasing order of the
    lower-cased name, whatever [lower] does to the names; an entry is an
    empty line, the name line, the description line when the description
    is not empty, the stats line and the url line.  So the listing has
    four lines per record and a fifth for each record with a non-empty
    description. *)
Theorem full_listing_covers_every_record :
  forall lower repos,
    (exists order,
       Permutation order repos /\
       StronglySorted
         (fun a b => str_ltb (lower (name b)) (lower (name a)) = false) order /\
       full_listing lower repos = concat (map listing_entry order)) /\
    (forall r,
       listing_entry r
       = [[]; listing_name_line r]
           ++ (if truthy_str (description r)
               then [description_line (or_empty (description r))] else [])
           ++ [listing_stats r; u "     " ++ [LINK] ++ u " " ++ url r]) /\
    length (full_listing lower repos)
    = 4 * length repos
      + length (filter (fun r => truthy_str (description r)) repos).
Proof.
  intros lower repos. unfold full_listing.
  pose proof (sorted_asc_perm str_ltb (fun r => lower (name r)) repos) as Hp.
  split; [|split].
  - exists (sorted_asc str_ltb (fun r => lower (name r)) repos).
    split; [exact Hp|]. split; [|apply flat_map_concat_map].
    apply (sorted_asc_sorted str_ltb (fun r => lower (name r))
             str_ltb_asym str_ltb_negtrans).
  - intros r. unfold listing_entry, listing_description.
    destruct (description r) as [[|c d]|]; reflexivity.
  - rewrite (Permutation_length (Permutation_flat_map listing_entry Hp)).
    clear Hp. induction repos as [|r repos IH]; [reflexivity|].
    cbn [flat_map filter]. rewrite length_app, listing_entry_length, IH.
    destruct (truthy_str (description r)); simpl; lia.
Qed.

(** X24.  The columns of the rows, in characters: the name column of the
    popularity panel is 45 wide and that of the recency panel 55 whatever
    the name, so that a popularity line has 50 characters before a star
    column of at least 10, and a recency line 58 before at most 10 of
    timestamp; a description line never has more than 82. *)
Theorem row_lengths :
  (forall r,
     length (popularity_line r)
     = 50 + Nat.max 10 (length (fmt_comma (stars r)))) /\
  (forall r,
     length (recency_line r)
     = 58 + Nat.min 10 (length (or_empty (updated_at r)))) /\
  (forall d, length (description_line d) <= 82).
Proof.
  split; [|split].
  - intros r. unfold popularity_line, ljust, rjust, popularity_name.
    rewrite !length_app, !repeat_length, length_firstn. simpl length. lia.
  - intros r. unfold recency_line, ljust, recency_name.
    rewrite !length_app, !repeat_length, !length_firstn. simpl length. lia.
  - intros d. unfold description_line.
    rewrite !length_app, length_firstn.
    destruct (Nat.ltb 74 (length d)); simpl length; lia.
Qed.

(** X21.  The language counter has each language of some record that is neither
    null nor empty exactly once as a key, and no other key; no count is
    zero. *)
Theorem language_counter_keys :
  forall repos,
    NoDup (map fst (languages repos)) /\
    (forall l,
       In l (map fst (languages repos))
       <-> truthy_str l = true /\ exists r, In r repos /\ language r = l) /\
    Forall (fun kn => 1 <= snd kn) (languages repos).
Proof.
  intros repos. unfold languages, Counter.
  destruct (counter_fold_invariants opt_str_eqb opt_str_eqb_eq
              (map language (filter (fun r => truthy_str (language r)) repos)) []
              (NoDup_nil _) (Forall_nil _)) as (Hnd & Hpos & Hkeys).
  split; [exact Hnd|]. split; [|exact Hpos].
  intros l. rewrite Hkeys, in_map_iff. simpl. split.
  - intros [(r & <- & Hr)|[]]. apply filter_In in Hr as (Hr & Ht).
    split; [exact Ht|]. now exists r.
  - intros (Ht & r & Hr & <-). left. exists r. split; [reflexivity|].
    apply filter_In. split; assumption.
Qed.

End RecapMore.
